(** * Task_Proxy: a generator run in a background process

    Shallow embedding of [pupil_src/shared_modules/background_helper.py].

    The worker process ([Task_Proxy._wrapper]) and the calling process
    ([Task_Proxy.fetch], [Task_Proxy.cancel], [Task_Proxy.__del__]) share a
    one-directional pipe and a boolean flag.  The embedding keeps one state
    record for both sides and interleaves them explicitly: the worker is a
    small-step machine, the caller's methods are functions that take the
    number of worker steps happening between two of their own statements.

    The pipe is reliable and unbounded: [send] always succeeds and objects
    arrive unchanged and in order.  The calls to [logger] touch none of the
    modelled state and are left out.  [IPC_Logging_Task_Proxy] runs the
    same [_wrapper] after installing a log handler of [zmq_tools], which is
    not part of this module; it is not modelled. *)

From Stdlib Require Import String List Bool Arith ZArith Lia.
Import ListNotations.

Set Implicit Arguments.

(** ** Python values that travel through the pipe *)

(** The exception classes the code distinguishes.
    [Subclass name base others] is a class declared as
    [class name(base, *others)]: a class can have several bases. *)
#[warnings="-register-all"]
Inductive pyclass : Type :=
| BaseException
| Exception
| StopIteration
| EarlyCancellationError
| KeyboardInterrupt
| SystemExit
| GeneratorExit
| ValueError
| RuntimeError
| EOFError
| Subclass (name : string) (base : pyclass) (others : list pyclass).

Definition pyclass_eq_dec : forall c d : pyclass, {c = d} + {c <> d}.
Proof.
  fix eq_dec 1. intros c d.
  decide equality; [apply (list_eq_dec eq_dec) | apply string_dec].
Defined.

(** The class itself and all the classes it inherits from, directly or
    not; only membership is used, so a class reached along two paths may
    be listed twice. *)
Fixpoint ancestors (c : pyclass) : list pyclass :=
  c :: match c with
       | BaseException => []
       | Exception | KeyboardInterrupt | SystemExit | GeneratorExit =>
           [BaseException]
       | StopIteration | EarlyCancellationError
       | ValueError | RuntimeError | EOFError =>
           [Exception; BaseException]
       | Subclass _ base others =>
           ancestors base ++ flat_map ancestors others
       end.

Definition issubclass (c d : pyclass) : bool :=
  if in_dec pyclass_eq_dec d (ancestors c) then true else false.

(** An exception instance: its class and its argument. *)
Record pyexc : Type := mk_exc { exc_class : pyclass; exc_args : string }.

Inductive pyval : Type :=
| PyNone
| PyInt (z : Z)
| PyStr (s : string)
| PyExc (e : pyexc).

Definition pyexc_eq_dec (e f : pyexc) : {e = f} + {e <> f}.
Proof.
  decide equality; [apply string_dec | apply pyclass_eq_dec].
Defined.

Definition pyval_eq_dec (v w : pyval) : {v = w} + {v <> w}.
Proof.
  decide equality;
    [apply Z.eq_dec | apply string_dec | apply pyexc_eq_dec].
Defined.

(** [isinstance(v, c)] for an exception class [c]. *)
Definition isinstance (v : pyval) (c : pyclass) : bool :=
  match v with
  | PyExc e => issubclass (exc_class e) c
  | _ => false
  end.

(** [class EarlyCancellationError(Exception): pass], raised by the wrapper
    with the message below; [StopIteration()] is sent on exhaustion. *)
Definition early_cancellation : pyexc :=
  mk_exc EarlyCancellationError "Task was cancelled".

Definition stop_iteration : pyexc := mk_exc StopIteration "".

(** How [fetch] reads a received object (lines 80-89): the [isinstance]
    chain, in the order of the source. *)
Inductive msg_kind : Type := KCompleted | KCancelled | KFailed | KItem.

Definition classify (datum : pyval) : msg_kind :=
  if isinstance datum StopIteration then KCompleted
  else if isinstance datum EarlyCancellationError then KCancelled
  else if isinstance datum Exception then KFailed
  else KItem.

(** ** The generator *)

(** What the [i]-th request for an item does.  Request [0] includes the
    call [generator( *args, **kwargs)] itself; the wrapper stops asking
    after the first request that gives no item.
    - [GYield v]: [next()] returns [v];
    - [GReturn]: the iterator is exhausted, also when it is so at the
      first request;
    - [GRaise e]: the request raises [e]; at request [0], where both the
      call and the first [next()] can raise, a [StopIteration] instance
      stands for one raised by the call. *)
Inductive gen_event : Type :=
| GYield (v : pyval)
| GReturn
| GRaise (e : pyexc).

Definition generator : Type := nat -> gen_event.

(** What the [for] statement of line 51 makes of request [i].  A
    [StopIteration] instance that leaves [next()] is the end of the
    iteration, whatever its class and argument, and the statement goes on
    as for an exhausted iterator.  Only at request [0] can a
    [StopIteration] reach the [try] statement: raised by the call
    [generator( *args, **kwargs)] itself, before the iteration starts. *)
Definition for_next (gen : generator) (i : nat) : gen_event :=
  match gen i with
  | GRaise e =>
      if issubclass (exc_class e) StopIteration
      then match i with
           | O => GRaise e
           | S _ => GReturn
           end
      else GRaise e
  | event => event
  end.

(** The exception the interpreter raises in place of a [StopIteration]
    that a generator function lets out of its body. *)
Definition generator_raised_stop : pyexc :=
  mk_exc RuntimeError "generator raised StopIteration".

(** A generator function whose body does [body i] between its [i]-th
    suspension and the next: calling it raises nothing, and a
    [StopIteration] instance raised in the body leaves [next()] as a
    [RuntimeError]; everything else passes unchanged. *)
Definition generator_function (body : nat -> gen_event) : generator :=
  fun i =>
    match body i with
    | GRaise e =>
        if issubclass (exc_class e) StopIteration
        then GRaise generator_raised_stop
        else GRaise e
    | event => event
    end.

(** How a generator that stops ends: exhausted, or raising. *)
Inductive gen_end : Type :=
| Exhausted
| Raises (e : pyexc).

Definition end_event (ending : gen_end) : gen_event :=
  match ending with
  | Exhausted => GReturn
  | Raises e => GRaise e
  end.

(** The generator that yields the items of [items] and then ends with
    [ending]. *)
Definition list_gen (items : list pyval) (ending : gen_end) : generator :=
  fun i => match nth_error items i with
           | Some v => GYield v
           | None => end_event ending
           end.

(** [gen] yields exactly [items], in order, and then ends with [ending]. *)
Definition produces (gen : generator) (items : list pyval) (ending : gen_end)
  : Prop :=
  forall i, i <= length items -> gen i = list_gen items ending i.

(** ** State *)

(** Control points of [_wrapper]. *)
Inductive exit_kind : Type :=
| ExitOk
| ExitUncaught (e : pyexc)
| ExitKilled.

Inductive wstate : Type :=
| WIter (i : nat)
| WCheck (datum : pyval) (i : nat)
| WSend (datum : pyval) (i : nat)
| WExcept (e : pyexc)
| WElse
| WFinally (pending : option pyexc)
| WExited (how : exit_kind).

Inductive handle : Type := Process.

(** Attributes of the proxy, the flag, the pipe, the worker, and history
    variables ([pipe_recvd], [yielded], [raised], [joins], [suspended]) that
    record what crossed the interfaces; the modelled code never reads the
    history. *)
Record sys : Type := mk_sys {
  completed : bool;
  canceled : bool;
  process : option handle;
  should_terminate_flag : bool;
  pipe_buf : list pyval;
  pipe_closed : bool;
  worker : wstate;
  pipe_recvd : list pyval;
  yielded : list pyval;
  raised : list pyval;
  joins : nat;
  suspended : nat
}.

(** Everything the worker has sent so far, in order. *)
Definition pipe_sent (s : sys) : list pyval := pipe_recvd s ++ pipe_buf s.

(** [Task_Proxy.__init__]: flag false, both status attributes false, the
    process started at the head of the wrapper's loop. *)
Definition init : sys :=
  mk_sys false false (Some Process) false [] false (WIter 0) [] [] [] 0 0.

Definition set_completed (s : sys) : sys :=
  mk_sys true (canceled s) (process s) (should_terminate_flag s)
    (pipe_buf s) (pipe_closed s) (worker s)
    (pipe_recvd s) (yielded s) (raised s) (joins s) (suspended s).

Definition set_canceled (s : sys) : sys :=
  mk_sys (completed s) true (process s) (should_terminate_flag s)
    (pipe_buf s) (pipe_closed s) (worker s)
    (pipe_recvd s) (yielded s) (raised s) (joins s) (suspended s).

Definition set_process (p : option handle) (s : sys) : sys :=
  mk_sys (completed s) (canceled s) p (should_terminate_flag s)
    (pipe_buf s) (pipe_closed s) (worker s)
    (pipe_recvd s) (yielded s) (raised s) (joins s) (suspended s).

Definition set_flag (s : sys) : sys :=
  mk_sys (completed s) (canceled s) (process s) true
    (pipe_buf s) (pipe_closed s) (worker s)
    (pipe_recvd s) (yielded s) (raised s) (joins s) (suspended s).

Definition set_worker (w : wstate) (s : sys) : sys :=
  mk_sys (completed s) (canceled s) (process s) (should_terminate_flag s)
    (pipe_buf s) (pipe_closed s) w
    (pipe_recvd s) (yielded s) (raised s) (joins s) (suspended s).

Definition set_suspended (n : nat) (s : sys) : sys :=
  mk_sys (completed s) (canceled s) (process s) (should_terminate_flag s)
    (pipe_buf s) (pipe_closed s) (worker s)
    (pipe_recvd s) (yielded s) (raised s) (joins s) n.

Definition log_yield (v : pyval) (s : sys) : sys :=
  mk_sys (completed s) (canceled s) (process s) (should_terminate_flag s)
    (pipe_buf s) (pipe_closed s) (worker s)
    (pipe_recvd s) (yielded s ++ [v]) (raised s) (joins s) (suspended s).

Definition log_raise (v : pyval) (s : sys) : sys :=
  mk_sys (completed s) (canceled s) (process s) (should_terminate_flag s)
    (pipe_buf s) (pipe_closed s) (worker s)
    (pipe_recvd s) (yielded s) (raised s ++ [v]) (joins s) (suspended s).

Definition log_join (s : sys) : sys :=
  mk_sys (completed s) (canceled s) (process s) (should_terminate_flag s)
    (pipe_buf s) (pipe_closed s) (worker s)
    (pipe_recvd s) (yielded s) (raised s) (S (joins s)) (suspended s).

(** ** The pipe *)

(** [pipe.send(v)]: appended behind what is buffered. *)
Definition send (v : pyval) (s : sys) : sys :=
  mk_sys (completed s) (canceled s) (process s) (should_terminate_flag s)
    (pipe_buf s ++ [v]) (pipe_closed s) (worker s)
    (pipe_recvd s) (yielded s) (raised s) (joins s) (suspended s).

(** [pipe.close()] on the sending end. *)
Definition close (s : sys) : sys :=
  mk_sys (completed s) (canceled s) (process s) (should_terminate_flag s)
    (pipe_buf s) true (worker s)
    (pipe_recvd s) (yielded s) (raised s) (joins s) (suspended s).

(** [pipe.poll(0)]: something is buffered, or the sending end is closed
    (the end of the stream is readable). *)
Definition poll (s : sys) : bool :=
  match pipe_buf s with
  | [] => pipe_closed s
  | _ :: _ => true
  end.

(** [pipe.recv()] after a successful [poll]: the oldest buffered object, or
    [None] for [EOFError] (nothing buffered, so [poll] saw the closed end). *)
Definition received (datum : pyval) (rest : list pyval) (s : sys) : sys :=
  mk_sys (completed s) (canceled s) (process s) (should_terminate_flag s)
    rest (pipe_closed s) (worker s)
    (pipe_recvd s ++ [datum]) (yielded s) (raised s) (joins s) (suspended s).

Definition recv (s : sys) : option (pyval * sys) :=
  match pipe_buf s with
  | [] => None
  | datum :: rest => Some (datum, received datum rest s)
  end.

(** ** The worker: [Task_Proxy._wrapper] (lines 46-65) *)

Section Task.

Variable gen : generator.

(** One step of the wrapper.
    - [WIter i]: the [for] statement asks the generator for item [i]; when
      the iteration ends the [else] clause is next; an exception that is
      not an [Exception] instance is not caught by [except Exception] and
      goes straight to [finally];
    - [WCheck]: [if _should_terminate_flag.value: raise EarlyCancellationError];
    - [WSend]: [pipe.send(datum)];
    - [WExcept e]: [pipe.send(e)];
    - [WElse]: [pipe.send(StopIteration())];
    - [WFinally]: [pipe.close()], then the process ends. *)
Definition worker_step (s : sys) : sys :=
  match worker s with
  | WIter i =>
      match for_next gen i with
      | GYield datum => set_worker (WCheck datum (S i)) s
      | GReturn => set_worker WElse s
      | GRaise e =>
          if issubclass (exc_class e) Exception
          then set_worker (WExcept e) s
          else set_worker (WFinally (Some e)) s
      end
  | WCheck datum i =>
      if should_terminate_flag s
      then set_worker (WExcept early_cancellation) s
      else set_worker (WSend datum i) s
  | WSend datum i => set_worker (WIter i) (send datum s)
  | WExcept e => set_worker (WFinally None) (send (PyExc e) s)
  | WElse => set_worker (WFinally None) (send (PyExc stop_iteration) s)
  | WFinally pending =>
      set_worker
        (WExited match pending with
                 | None => ExitOk
                 | Some e => ExitUncaught e
                 end)
        (close s)
  | WExited _ => s
  end.

(** The worker runs for [k] steps. *)
Fixpoint work (k : nat) (s : sys) : sys :=
  match k with
  | O => s
  | S k' => work k' (worker_step s)
  end.

(** The worker process is killed from outside: it stops where it is and the
    operating system closes its end of the pipe. *)
Definition kill (s : sys) : sys :=
  match worker s with
  | WExited _ => s
  | _ => set_worker (WExited ExitKilled) (close s)
  end.

(** ** The caller: [Task_Proxy.fetch] (lines 67-89) *)

Inductive iter_result : Type :=
| IterYield (datum : pyval)
| IterReturn
| IterRaise (datum : pyval).

(** One resumption of the generator object inside the [while] loop: from the
    loop test to the next [yield], [return] or [raise]. *)
Definition fetch_iter (s : sys) : sys * iter_result :=
  if poll s then
    match recv s with
    | None => (set_canceled s, IterReturn)
    | Some (datum, s') =>
        if isinstance datum StopIteration then (set_completed s', IterReturn)
        else if isinstance datum EarlyCancellationError
             then (set_canceled s', IterReturn)
        else if isinstance datum Exception
             then (log_raise datum s', IterRaise datum)
        else (log_yield datum s', IterYield datum)
    end
  else (s, IterReturn).

Inductive outcome : Type :=
| Returned
| Raised (e : pyval)
| Suspended.

(** The generator object is resumed once per entry of [sched]; before the
    resumption the worker runs for that many steps.  When [sched] runs out
    the caller has stopped iterating and the generator stays suspended. *)
Fixpoint fetch_loop (sched : list nat) (s : sys) : sys * outcome :=
  match sched with
  | [] => (s, Suspended)
  | k :: ks =>
      match fetch_iter (work k s) with
      | (s', IterYield _) => fetch_loop ks s'
      | (s', IterReturn) => (s', Returned)
      | (s', IterRaise e) => (s', Raised e)
      end
  end.

(** A [fetch()] call iterated by its caller at most [length sched] times and
    then dropped; the body starts with
    [if self.completed or self.canceled: return]. *)
Definition fetch (sched : list nat) (s : sys) : sys * outcome :=
  match sched with
  | [] => (s, Suspended)
  | _ :: _ =>
      if completed s || canceled s then (s, Returned) else fetch_loop sched s
  end.

(** A schedule long enough for a [for] loop over [fetch()] to reach the end
    of the generator object: [sched], then as many resumptions without
    worker progress as objects can be in the pipe by then, plus one. *)
Definition exhaust (sched : list nat) (s : sys) : list nat :=
  sched ++ repeat 0 (S (length (pipe_buf s) + list_sum sched)).

Definition fetch_all (sched : list nat) (s : sys) : sys * outcome :=
  fetch (exhaust sched s) s.

(** The generator object handled by hand: [fetch_first] is the first
    [next()] on a fresh object, [fetch_resume] a [next()] on an object that
    is suspended at its [yield], [drop] forgets such an object. *)
Definition fetch_first (s : sys) : sys * outcome :=
  if completed s || canceled s then (s, Returned)
  else match fetch_iter s with
       | (s', IterYield _) => (set_suspended (S (suspended s')) s', Suspended)
       | (s', IterReturn) => (s', Returned)
       | (s', IterRaise e) => (s', Raised e)
       end.

Definition fetch_resume (s : sys) : sys * outcome :=
  match suspended s with
  | O => (s, Returned)
  | S n =>
      match fetch_iter s with
      | (s', IterYield _) => (s', Suspended)
      | (s', IterReturn) => (set_suspended n s', Returned)
      | (s', IterRaise e) => (set_suspended n s', Raised e)
      end
  end.

Definition drop (s : sys) : sys := set_suspended (pred (suspended s)) s.

(** ** [Task_Proxy.cancel] (lines 91-99) and [__del__] (lines 109-111) *)

(** [self.process.join(timeout); self.process = None]: the worker runs for
    [j] steps while the caller waits. *)
Definition join (j : nat) (s : sys) : sys :=
  match process s with
  | Some _ => set_process None (log_join (work j s))
  | None => s
  end.

Definition cancel (sched : list nat) (j : nat) (s : sys) : sys * outcome :=
  let '(s1, r) :=
    if negb (completed s || canceled s)
    then fetch_all sched (set_flag s)
    else (s, Returned) in
  match r with
  | Raised e => (s1, Raised e)
  | _ => (join j s1, Returned)
  end.

Definition del (sched : list nat) (j : nat) (s : sys) : sys * outcome :=
  match cancel sched j s with
  | (s1, Raised e) => (s1, Raised e)
  | (s1, r) => (set_process None s1, r)
  end.

(** ** Runs *)

Inductive op : Type :=
| OWork (k : nat)
| OKill
| OFetch (sched : list nat)
| OFetchAll (sched : list nat)
| OCancel (sched : list nat) (j : nat)
| ODel (sched : list nat) (j : nat)
| OFirst
| OResume
| ODrop.

Definition exec (o : op) (s : sys) : sys * outcome :=
  match o with
  | OWork k => (work k s, Returned)
  | OKill => (kill s, Returned)
  | OFetch sched => fetch sched s
  | OFetchAll sched => fetch_all sched s
  | OCancel sched j => cancel sched j s
  | ODel sched j => del sched j s
  | OFirst => fetch_first s
  | OResume => fetch_resume s
  | ODrop => (drop s, Returned)
  end.

Definition run (ops : list op) (s : sys) : sys :=
  fold_left (fun s' o => fst (exec o s')) ops s.

End Task.

(** ** Vocabulary of the properties *)

(** *** Messages *)

(** An object that [fetch] hands to its caller as data. *)
Definition is_item (v : pyval) : Prop := isinstance v Exception = false.

(** The messages of [sent] are items followed by exactly one object that
    [fetch] reads as a terminal message. *)
Definition one_terminal_last (sent : list pyval) : Prop :=
  exists items t,
    sent = items ++ [t] /\ Forall is_item items /\ classify t <> KItem.

(** No object of [sent] is read as a terminal message. *)
Definition no_terminal (sent : list pyval) : Prop := Forall is_item sent.

(** The way the generator ends reaches the [try] statement as it is: a
    [StopIteration] can only do so out of the call, before any item. *)
Definition reaches_try (items : list pyval) (ending : gen_end) : Prop :=
  match ending with
  | Exhausted => True
  | Raises e => issubclass (exc_class e) StopIteration = true -> items = []
  end.

(** The last message of a wrapper that ran a stopping generator to its end
    without cancellation, for an ending that reaches the [try] statement
    as it is: nothing when the exception is not an [Exception] instance. *)
Definition terminal_of (ending : gen_end) : list pyval :=
  match ending with
  | Exhausted => [PyExc stop_iteration]
  | Raises e => if issubclass (exc_class e) Exception then [PyExc e] else []
  end.

(** Everything a wrapper sends over a generator that yields [items] and
    ends with such an [ending], when it is not cancelled. *)
Definition stream (items : list pyval) (ending : gen_end) : list pyval :=
  items ++ terminal_of ending.

(** The exception an operation lets out, as a list. *)
Definition raised_by (r : outcome) : list pyval :=
  match r with
  | Raised x => [x]
  | _ => []
  end.

(** *** Kinds of runs *)

(** Calls to [fetch] and time passing: no [cancel], no [__del__], no kill. *)
Definition fetch_op (o : op) : Prop :=
  match o with
  | OWork _ | OFetch _ | OFetchAll _ | OFirst | OResume | ODrop => True
  | OKill | OCancel _ _ | ODel _ _ => False
  end.

(** Calls made one after the other: every generator object returned by
    [fetch()] is iterated by a [for] loop, to its end or until the loop is
    left, before the next call on the proxy. *)
Definition sequential_op (o : op) : Prop :=
  match o with
  | OWork _ | OKill | OFetch _ | OFetchAll _ | OCancel _ _ | ODel _ _ => True
  | OFirst | OResume | ODrop => False
  end.

(** The worker is not killed from outside. *)
Definition unkilled_op (o : op) : Prop :=
  match o with
  | OKill => False
  | _ => True
  end.

(** The operations that can write the cancellation flag. *)
Definition is_cancel (o : op) : bool :=
  match o with
  | OCancel _ _ | ODel _ _ => true
  | _ => false
  end.

(** The worker has left [_wrapper]. *)
Definition exited (s : sys) : Prop := exists how, worker s = WExited how.

(** No item of the generator is an [Exception] instance. *)
Definition plain_items (gen : generator) : Prop :=
  forall i v, gen i = GYield v -> is_item v.

(** *** One resumption of [fetch], and several *)

(** What the caller's side of the state is made of: everything but the
    buffer, the closed mark and the worker's control point. *)
Definition same_caller_view (s s' : sys) : Prop :=
  completed s' = completed s /\ canceled s' = canceled s /\
  process s' = process s /\
  should_terminate_flag s' = should_terminate_flag s /\
  pipe_recvd s' = pipe_recvd s /\ yielded s' = yielded s /\
  raised s' = raised s /\ joins s' = joins s /\ suspended s' = suspended s.

(** The six ways through one resumption of [fetch]'s loop. *)
Inductive iter_spec (s : sys) : sys * iter_result -> Prop :=
| iter_nothing :
    pipe_buf s = [] -> pipe_closed s = false ->
    iter_spec s (s, IterReturn)
| iter_eof :
    pipe_buf s = [] -> pipe_closed s = true ->
    iter_spec s (set_canceled s, IterReturn)
| iter_completed datum rest :
    pipe_buf s = datum :: rest -> classify datum = KCompleted ->
    iter_spec s (set_completed (received datum rest s), IterReturn)
| iter_cancelled datum rest :
    pipe_buf s = datum :: rest -> classify datum = KCancelled ->
    iter_spec s (set_canceled (received datum rest s), IterReturn)
| iter_failed datum rest :
    pipe_buf s = datum :: rest -> classify datum = KFailed ->
    iter_spec s (log_raise datum (received datum rest s), IterRaise datum)
| iter_item datum rest :
    pipe_buf s = datum :: rest -> classify datum = KItem ->
    iter_spec s (log_yield datum (received datum rest s), IterYield datum).

(** One resumption of the loop followed, after a [yield], by the rest of
    the schedule: [fetch_loop gen (k :: ks) s] is
    [resume_then gen ks (work gen k s)]. *)
Definition resume_then (gen : generator) (ks : list nat) (s : sys)
  : sys * outcome :=
  match fetch_iter s with
  | (s', IterYield _) => fetch_loop gen ks s'
  | (s', IterReturn) => (s', Returned)
  | (s', IterRaise e) => (s', Raised e)
  end.

(** [s1] is [s] after the caller received and yielded the items [pre], with
    [post] still at the head of the buffer. *)
Definition consumed (pre post : list pyval) (s s1 : sys) : Prop :=
  completed s1 = completed s /\ canceled s1 = canceled s /\
  process s1 = process s /\
  should_terminate_flag s1 = should_terminate_flag s /\
  pipe_recvd s1 = pipe_recvd s ++ pre /\ yielded s1 = yielded s ++ pre /\
  raised s1 = raised s /\ joins s1 = joins s /\ suspended s1 = suspended s /\
  (exists extra, pipe_buf s1 = post ++ extra) /\
  (exited s ->
   pipe_buf s1 = post /\ worker s1 = worker s /\
   pipe_closed s1 = pipe_closed s).

(** *** Invariants of the wrapper *)

(** What has been sent at each control point of [_wrapper], when no item is
    an [Exception] instance and nobody kills the worker. *)
Definition wrapper_inv (s : sys) : Prop :=
  match worker s with
  | WIter _ | WElse => pipe_closed s = false /\ no_terminal (pipe_sent s)
  | WCheck d _ | WSend d _ =>
      is_item d /\ pipe_closed s = false /\ no_terminal (pipe_sent s)
  | WExcept e =>
      issubclass (exc_class e) Exception = true /\
      pipe_closed s = false /\ no_terminal (pipe_sent s)
  | WFinally None => pipe_closed s = false /\ one_terminal_last (pipe_sent s)
  | WFinally (Some e) =>
      issubclass (exc_class e) Exception = false /\
      pipe_closed s = false /\ no_terminal (pipe_sent s)
  | WExited ExitOk => pipe_closed s = true /\ one_terminal_last (pipe_sent s)
  | WExited (ExitUncaught e) =>
      issubclass (exc_class e) Exception = false /\
      pipe_closed s = true /\ no_terminal (pipe_sent s)
  | WExited ExitKilled => False
  end.

(** An upper bound on the steps the wrapper still takes over a generator
    that stops after [items]. *)
Definition steps_left (items : list pyval) (s : sys) : nat :=
  match worker s with
  | WIter i => 3 * (length items - i) + 3
  | WCheck _ i => 3 * (length items - i) + 5
  | WSend _ i => 3 * (length items - i) + 4
  | WExcept _ | WElse => 2
  | WFinally _ => 1
  | WExited _ => 0
  end.

(** The wrapper asks for an item that exists, or for the one behind the
    last. *)
Definition in_range (items : list pyval) (s : sys) : Prop :=
  match worker s with
  | WIter i => i <= length items
  | WCheck _ i | WSend _ i => 1 <= i <= length items
  | _ => True
  end.

(** *** A generator that stops, a caller that only polls *)

(** Where the wrapper is in that stream. *)
Definition wrapper_at (items : list pyval) (ending : gen_end) (s : sys)
  : Prop :=
  should_terminate_flag s = false /\
  match worker s with
  | WIter i =>
      i <= length items /\ pipe_sent s = firstn i items /\
      pipe_closed s = false
  | WCheck d i | WSend d i =>
      (exists j, i = S j /\ nth_error items j = Some d /\
                 pipe_sent s = firstn j items) /\
      pipe_closed s = false
  | WExcept e =>
      ending = Raises e /\ issubclass (exc_class e) Exception = true /\
      pipe_sent s = items /\ pipe_closed s = false
  | WElse => ending = Exhausted /\ pipe_sent s = items /\ pipe_closed s = false
  | WFinally _ => pipe_sent s = stream items ending /\ pipe_closed s = false
  | WExited _ => pipe_sent s = stream items ending /\ pipe_closed s = true
  end.

(** Where the caller is: either it has only received items, all of them
    yielded, or it has received the whole stream and acted on its terminal
    message. *)
Definition caller_at (items : list pyval) (ending : gen_end) (s : sys)
  : Prop :=
  Forall is_item (yielded s) /\
  ((pipe_recvd s = yielded s /\ raised s = [] /\ completed s = false /\
    (canceled s = true -> pipe_recvd s = stream items ending))
   \/
   (exists t,
       terminal_of ending = [t] /\ pipe_recvd s = items ++ [t] /\
       yielded s = items /\
       match classify t with
       | KCompleted => completed s = true /\ raised s = []
       | KCancelled =>
           canceled s = true /\ completed s = false /\ raised s = []
       | KFailed => raised s = [t] /\ completed s = false
       | KItem => False
       end)).

(** Both sides together. *)
Definition fetch_inv (items : list pyval) (ending : gen_end) (s : sys)
  : Prop :=
  wrapper_at items ending s /\ caller_at items ending s.

(** *** Concrete generators and runs *)

(** The generator [1, 2, 3]. *)
Definition gen_123 : generator :=
  list_gen [PyInt 1; PyInt 2; PyInt 3] Exhausted.

(** A generator whose item is an exception object. *)
Definition gen_yields_error : generator :=
  list_gen [PyExc (mk_exc ValueError "datum")] Exhausted.

(** A generator that ends on an exception outside the [Exception]
    hierarchy. *)
Definition gen_interrupted : generator :=
  list_gen [PyInt 1] (Raises (mk_exc KeyboardInterrupt "")).

(** A generator that fails after one item. *)
Definition value_error : pyexc := mk_exc ValueError "boom".

Definition gen_fails : generator := list_gen [PyInt 1] (Raises value_error).

(** A callable that raises [StopIteration("inner")] when it is called,
    before the iteration starts. *)
Definition gen_raises_stop : generator :=
  list_gen [] (Raises (mk_exc StopIteration "inner")).

(** An iterator whose [__next__] raises [StopIteration("late")] after one
    item. *)
Definition iter_stops_late : generator :=
  list_gen [PyInt 1] (Raises (mk_exc StopIteration "late")).

(** A generator function whose body raises [StopIteration] after one
    [yield]. *)
Definition gen_stop_in_body : generator :=
  generator_function (list_gen [PyInt 1] (Raises (mk_exc StopIteration ""))).

(** An instance of [class Both(EarlyCancellationError, StopIteration)]. *)
Definition both_sentinels : pyexc :=
  mk_exc (Subclass "Both" EarlyCancellationError [StopIteration]) "".

(** The caller polls until completion and only then calls [cancel], as the
    [__main__] block of the module does. *)
Definition poll_to_completion : list op :=
  [OWork 7; OFetchAll []; OWork 20; OFetchAll []].

(** The worker finishes, then the caller polls once. *)
Definition finish_then_poll : list op := [OWork 20; OFetchAll []].

(** [for x in task.fetch(): task.cancel()] on a finished worker: the loop
    body runs after the first item, then the loop resumes the generator
    object. *)
Definition cancel_inside_loop : list op :=
  [OWork 20; OFirst; OCancel [] 0; OResume].

(** *** The wrapper over any generator *)

(** [items] are the first objects the generator yields, in order. *)
Definition first_yields (gen : generator) (items : list pyval) : Prop :=
  forall k v, nth_error items k = Some v -> gen k = GYield v.

(** Why a wrapper that has sent [j] items sends [e] as its last message:
    the iteration ended at request [j] and [e] is the [StopIteration()] of
    the [else] clause, or request [j] raised [e] into the [try] statement,
    or the flag was seen set when item [j] arrived, which is then
    dropped. *)
Definition terminal_reason
  (gen : generator) (j : nat) (flag : bool) (e : pyexc) : Prop :=
  (e = stop_iteration /\ for_next gen j = GReturn) \/
  (for_next gen j = GRaise e /\ issubclass (exc_class e) Exception = true) \/
  (e = early_cancellation /\ flag = true /\ exists d, gen j = GYield d).

(** What the pipe has carried: the first items of the generator, and then
    possibly one last message with its reason. *)
Definition sent_ok (gen : generator) (s : sys) : Prop :=
  first_yields gen (pipe_sent s) \/
  exists items e,
    pipe_sent s = items ++ [PyExc e] /\ first_yields gen items /\
    terminal_reason gen (length items) (should_terminate_flag s) e.

(** The same, control point by control point. *)
Definition lockstep (gen : generator) (s : sys) : Prop :=
  match worker s with
  | WIter i => first_yields gen (pipe_sent s) /\ length (pipe_sent s) = i
  | WCheck d i | WSend d i =>
      first_yields gen (pipe_sent s ++ [d]) /\
      length (pipe_sent s ++ [d]) = i
  | WExcept e =>
      first_yields gen (pipe_sent s) /\
      terminal_reason gen (length (pipe_sent s)) (should_terminate_flag s) e
  | WElse =>
      first_yields gen (pipe_sent s) /\
      for_next gen (length (pipe_sent s)) = GReturn
  | WFinally (Some e) | WExited (ExitUncaught e) =>
      first_yields gen (pipe_sent s) /\
      for_next gen (length (pipe_sent s)) = GRaise e /\
      issubclass (exc_class e) Exception = false
  | WFinally None | WExited ExitOk =>
      exists items e,
        pipe_sent s = items ++ [PyExc e] /\ first_yields gen items /\
        terminal_reason gen (length items) (should_terminate_flag s) e
  | WExited ExitKilled => sent_ok gen s
  end.

(** Steps and messages a wrapper still has in front of it once the flag is
    set. *)
Definition steps_when_cancelled (s : sys) : nat :=
  match worker s with
  | WSend _ _ => 5
  | WIter _ => 4
  | WCheck _ _ => 3
  | WExcept _ | WElse => 2
  | WFinally _ => 1
  | WExited _ => 0
  end.

Definition sends_when_cancelled (s : sys) : nat :=
  match worker s with
  | WSend _ _ => 2
  | WIter _ | WCheck _ _ | WExcept _ | WElse => 1
  | WFinally _ | WExited _ => 0
  end.

(** *** What [fetch] did with what it received *)

Definition is_itemb (v : pyval) : bool := negb (isinstance v Exception).

Definition has_kind (k : msg_kind) (v : pyval) : bool :=
  match classify v, k with
  | KCompleted, KCompleted | KCancelled, KCancelled
  | KFailed, KFailed | KItem, KItem => true
  | _, _ => false
  end.

(** Every received object is accounted for: the items were yielded, the
    failures raised, and the status attributes tell which sentinels were
    read. *)
Definition accounted (s : sys) : Prop :=
  yielded s = filter is_itemb (pipe_recvd s) /\
  raised s = filter (has_kind KFailed) (pipe_recvd s) /\
  completed s = existsb (has_kind KCompleted) (pipe_recvd s) /\
  (existsb (has_kind KCancelled) (pipe_recvd s) = true ->
   canceled s = true) /\
  (canceled s = true ->
   existsb (has_kind KCancelled) (pipe_recvd s) = true \/
   pipe_closed s = true).

(** The pipe is closed exactly when the worker is gone. *)
Definition gone (s : sys) : bool :=
  match worker s with
  | WExited _ => true
  | _ => false
  end.

Definition closed_when_gone (s : sys) : Prop := pipe_closed s = gone s.
(** ** Class hierarchy *)

Lemma pyclass_bases_ind (P : pyclass -> Prop) :
  P BaseException -> P Exception -> P StopIteration ->
  P EarlyCancellationError -> P KeyboardInterrupt -> P SystemExit ->
  P GeneratorExit -> P ValueError -> P RuntimeError -> P EOFError ->
  (forall name base others,
      P base -> Forall P others -> P (Subclass name base others)) ->
  forall c, P c.
Proof.
  intros H1 H2 H3 H4 H5 H6 H7 H8 H9 H10 Hsub.
  fix IH 1. intros [| | | | | | | | | | name base others]; try assumption.
  apply Hsub; [apply IH |].
  induction others as [| c others IHo]; constructor; [apply IH | exact IHo].
Qed.

(** Both sentinel classes are below [Exception], and so is every class
    below one of them. *)
Lemma ancestors_exception (c d : pyclass) :
  In d [StopIteration; EarlyCancellationError] ->
  In d (ancestors c) -> In Exception (ancestors c).
Proof.
  intros Hd. induction c as [| | | | | | | | | | name base others IHb IHo]
    using pyclass_bases_ind; simpl; intros H;
    try (destruct Hd as [<- | [<- | []]];
         repeat (destruct H as [H | H]; try discriminate H);
         try contradiction; tauto).
  right. apply in_or_app.
  destruct H as [H | H];
    [destruct Hd as [<- | [<- | []]]; discriminate H |].
  apply in_app_or in H. destruct H as [H | H]; [left; now apply IHb |].
  right. apply in_flat_map in H. destruct H as (b & Hb & H).
  apply in_flat_map. exists b. split; [assumption |].
  rewrite Forall_forall in IHo. now apply IHo.
Qed.

Lemma issubclass_true (c d : pyclass) :
  issubclass c d = true <-> In d (ancestors c).
Proof.
  unfold issubclass. destruct (in_dec pyclass_eq_dec d (ancestors c)); split;
    intros; try discriminate; tauto.
Qed.

Lemma stop_iteration_is_exception (v : pyval) :
  isinstance v StopIteration = true -> isinstance v Exception = true.
Proof.
  destruct v; simpl; try discriminate.
  rewrite !issubclass_true. apply ancestors_exception. simpl; tauto.
Qed.

Lemma early_cancellation_is_exception (v : pyval) :
  isinstance v EarlyCancellationError = true -> isinstance v Exception = true.
Proof.
  destruct v; simpl; try discriminate.
  rewrite !issubclass_true. apply ancestors_exception. simpl; tauto.
Qed.

Lemma classify_item (v : pyval) : classify v = KItem <-> is_item v.
Proof.
  unfold classify, is_item.
  destruct (isinstance v StopIteration) eqn:E1.
  { apply stop_iteration_is_exception in E1. rewrite E1.
    split; discriminate. }
  destruct (isinstance v EarlyCancellationError) eqn:E2.
  { apply early_cancellation_is_exception in E2. rewrite E2.
    split; discriminate. }
  destruct (isinstance v Exception); split; congruence.
Qed.

Lemma classify_exception (v : pyval) :
  classify v <> KItem <-> isinstance v Exception = true.
Proof.
  rewrite classify_item. unfold is_item.
  destruct (isinstance v Exception); split; congruence.
Qed.

(** ** The [for] statement *)

Lemma for_next_yield (gen : generator) (i : nat) (v : pyval) :
  for_next gen i = GYield v <-> gen i = GYield v.
Proof.
  unfold for_next. destruct (gen i) as [w | | e]; try tauto.
  destruct (issubclass (exc_class e) StopIteration); [destruct i |];
    split; discriminate.
Qed.

Lemma for_next_yield_inv (gen : generator) (i : nat) (v : pyval) :
  for_next gen i = GYield v -> gen i = GYield v.
Proof. apply for_next_yield. Qed.

(** The iteration ends at request [i]: the iterator is exhausted, or a
    [StopIteration] instance leaves a request behind the call. *)
Lemma for_next_return (gen : generator) (i : nat) :
  for_next gen i = GReturn <->
  gen i = GReturn \/
  exists e, gen i = GRaise e /\
            issubclass (exc_class e) StopIteration = true /\ i <> 0.
Proof.
  unfold for_next. destruct (gen i) as [w | | e].
  - split; [discriminate | intros [H | (e & H & _)]; discriminate H].
  - tauto.
  - destruct (issubclass (exc_class e) StopIteration) eqn:Hs;
      [destruct i |]; split; try discriminate; try reflexivity.
    + intros [H | (e' & H & _ & Hi)]; [discriminate H | now elim Hi].
    + intros _. right. exists e. auto.
    + intros [H | (e' & H & Hs' & _)]; [discriminate H |].
      injection H as <-. congruence.
Qed.

(** An exception reaches the [try] statement from request [i]: it is no
    [StopIteration] instance, or the call itself raised it. *)
Lemma for_next_raise (gen : generator) (i : nat) (e : pyexc) :
  for_next gen i = GRaise e <->
  gen i = GRaise e /\
  (issubclass (exc_class e) StopIteration = false \/ i = 0).
Proof.
  unfold for_next. destruct (gen i) as [w | | e'].
  - split; [discriminate | intros [H _]; discriminate H].
  - split; [discriminate | intros [H _]; discriminate H].
  - destruct (issubclass (exc_class e') StopIteration) eqn:Hs;
      [destruct i |]; split; try discriminate.
    + intros H. injection H as <-. auto.
    + now intros [H _].
    + intros [H [Hs' | Hi]]; [| discriminate Hi].
      injection H as <-. congruence.
    + intros H. injection H as <-. auto.
    + now intros [H _].
Qed.

(** A generator function never lets a [StopIteration] out. *)
Lemma generator_function_for_next (body : nat -> gen_event) (i : nat) :
  for_next (generator_function body) i = generator_function body i.
Proof.
  unfold for_next, generator_function.
  destruct (body i) as [v | | e]; try reflexivity.
  destruct (issubclass (exc_class e) StopIteration) eqn:Hs; simpl;
    [reflexivity | now rewrite Hs].
Qed.

(** ** One resumption of [fetch] *)

Lemma fetch_iterP (s : sys) : iter_spec s (fetch_iter s).
Proof.
  unfold fetch_iter, poll, recv, classify.
  destruct (pipe_buf s) as [| datum rest] eqn:Hbuf.
  - destruct (pipe_closed s) eqn:Hc; now constructor.
  - destruct (isinstance datum StopIteration) eqn:E1.
    { apply iter_completed; [assumption | unfold classify; now rewrite E1]. }
    destruct (isinstance datum EarlyCancellationError) eqn:E2.
    { apply iter_cancelled;
        [assumption | unfold classify; now rewrite E1, E2]. }
    destruct (isinstance datum Exception) eqn:E3.
    + apply iter_failed;
        [assumption | unfold classify; now rewrite E1, E2, E3].
    + apply iter_item;
        [assumption | unfold classify; now rewrite E1, E2, E3].
Qed.

(** [fetch] never blocks: [recv] is reached only when it cannot wait. *)
Lemma poll_recv (s : sys) :
  poll s = true -> recv s = None -> pipe_closed s = true.
Proof.
  unfold poll, recv. destruct (pipe_buf s); [tauto | discriminate].
Qed.

(** ** The worker seen from the caller *)

Section Worker.

Variable gen : generator.

Lemma worker_step_view (s : sys) :
  same_caller_view s (worker_step gen s) /\
  exists extra, pipe_buf (worker_step gen s) = pipe_buf s ++ extra /\
                length extra <= 1.
Proof.
  unfold worker_step, same_caller_view.
  destruct (worker s) as [i | d i | d i | e | | p | h]; simpl.
  - destruct (for_next gen i) as [v | | e];
      [| | destruct (issubclass (exc_class e) Exception)]; simpl;
      (split; [tauto | exists []; rewrite app_nil_r; auto]).
  - destruct (should_terminate_flag s) eqn:Hflag; simpl;
      (split; [repeat split; assumption
              | exists []; rewrite app_nil_r; auto]).
  - split; [tauto | exists [d]; auto].
  - split; [tauto | exists [PyExc e]; auto].
  - split; [tauto | exists [PyExc stop_iteration]; auto].
  - split; [tauto | exists []; rewrite app_nil_r; auto].
  - split; [tauto | exists []; rewrite app_nil_r; auto].
Qed.

Lemma same_caller_view_refl (s : sys) : same_caller_view s s.
Proof. unfold same_caller_view; tauto. Qed.

Lemma same_caller_view_trans (s1 s2 s3 : sys) :
  same_caller_view s1 s2 -> same_caller_view s2 s3 -> same_caller_view s1 s3.
Proof.
  unfold same_caller_view. intuition congruence.
Qed.

Lemma work_view (k : nat) (s : sys) :
  same_caller_view s (work gen k s) /\
  exists extra, pipe_buf (work gen k s) = pipe_buf s ++ extra /\
                length extra <= k.
Proof.
  revert s. induction k as [| k IH]; intros s; simpl.
  - split; [apply same_caller_view_refl |].
    exists []. rewrite app_nil_r. auto.
  - destruct (worker_step_view s) as [Hv (e1 & Hb1 & Hl1)].
    destruct (IH (worker_step gen s)) as [Hv' (e2 & Hb2 & Hl2)].
    split; [eapply same_caller_view_trans; eassumption |].
    exists (e1 ++ e2). rewrite Hb2, Hb1, <- app_assoc, length_app.
    split; [reflexivity | lia].
Qed.

Lemma worker_step_exited (s : sys) :
  exited s -> worker_step gen s = s.
Proof.
  intros [h Hw]. unfold worker_step. now rewrite Hw.
Qed.

Lemma work_exited (k : nat) (s : sys) : exited s -> work gen k s = s.
Proof.
  intros H. induction k as [| k IH]; simpl; [reflexivity |].
  now rewrite worker_step_exited.
Qed.

Lemma work_add (j k : nat) (s : sys) :
  work gen (j + k) s = work gen k (work gen j s).
Proof.
  revert s. induction j as [| j IH]; intros s; simpl; [reflexivity |].
  apply IH.
Qed.

End Worker.

(** ** Lifting a property of the primitive steps to the operations *)

Section Lifting.

Variable gen : generator.
Variable P : sys -> Prop.

Hypothesis P_worker_step : forall s, P s -> P (worker_step gen s).
Hypothesis P_fetch_iter : forall s, P s -> P (fst (fetch_iter s)).
Hypothesis P_set_suspended : forall n s, P s -> P (set_suspended n s).

Lemma lift_work (k : nat) (s : sys) : P s -> P (work gen k s).
Proof.
  revert s. induction k as [| k IH]; intros s Hs; simpl; auto.
Qed.

Lemma lift_fetch_loop (sched : list nat) (s : sys) :
  P s -> P (fst (fetch_loop gen sched s)).
Proof.
  revert s. induction sched as [| k ks IH]; intros s Hs; simpl; [assumption |].
  pose proof (P_fetch_iter (lift_work k Hs)) as H.
  destruct (fetch_iter (work gen k s)) as [s' [d | | d]]; simpl in *; auto.
Qed.

Lemma lift_fetch (sched : list nat) (s : sys) :
  P s -> P (fst (fetch gen sched s)).
Proof.
  intros Hs. unfold fetch. destruct sched as [| k ks]; [assumption |].
  destruct (completed s || canceled s); [assumption |].
  now apply lift_fetch_loop.
Qed.

Lemma lift_fetch_all (sched : list nat) (s : sys) :
  P s -> P (fst (fetch_all gen sched s)).
Proof. apply lift_fetch. Qed.

Lemma lift_fetch_first (s : sys) : P s -> P (fst (fetch_first s)).
Proof.
  intros Hs. unfold fetch_first.
  destruct (completed s || canceled s); [assumption |].
  pose proof (P_fetch_iter Hs) as H.
  destruct (fetch_iter s) as [s' [d | | d]]; simpl in *; auto.
Qed.

Lemma lift_fetch_resume (s : sys) : P s -> P (fst (fetch_resume s)).
Proof.
  intros Hs. unfold fetch_resume.
  destruct (suspended s) as [| n]; [assumption |].
  pose proof (P_fetch_iter Hs) as H.
  destruct (fetch_iter s) as [s' [d | | d]]; simpl in *; auto.
Qed.

Lemma lift_fetch_op (o : op) (s : sys) :
  fetch_op o -> P s -> P (fst (exec gen o s)).
Proof.
  destruct o; simpl; try contradiction; intros _ Hs.
  - now apply lift_work.
  - now apply lift_fetch.
  - now apply lift_fetch_all.
  - now apply lift_fetch_first.
  - now apply lift_fetch_resume.
  - now apply P_set_suspended.
Qed.

Lemma lift_fetch_ops (ops : list op) (s : sys) :
  Forall fetch_op ops -> P s -> P (run gen ops s).
Proof.
  intros Hops. revert s. induction Hops as [| o ops Ho _ IH]; intros s Hs.
  - assumption.
  - apply IH. now apply lift_fetch_op.
Qed.

Hypothesis P_set_flag : forall s, P s -> P (set_flag s).
Hypothesis P_set_process : forall s, P s -> P (set_process None s).
Hypothesis P_joined :
  forall s, P s -> process s <> None -> P (set_process None (log_join s)).

Lemma lift_join (j : nat) (s : sys) : P s -> P (join gen j s).
Proof.
  intros Hs. unfold join. destruct (process s) eqn:Hp; [| assumption].
  apply P_joined; [now apply lift_work |].
  destruct (work_view gen j s) as [(_ & _ & H & _) _]. congruence.
Qed.

Lemma lift_cancel (sched : list nat) (j : nat) (s : sys) :
  P s -> P (fst (cancel gen sched j s)).
Proof.
  intros Hs. unfold cancel.
  destruct (negb (completed s || canceled s)).
  - pose proof (lift_fetch_all sched (P_set_flag Hs)) as H.
    destruct (fetch_all gen sched (set_flag s)) as [s1 [| e |]];
      simpl in *; auto using lift_join.
  - simpl. now apply lift_join.
Qed.

Lemma lift_del (sched : list nat) (j : nat) (s : sys) :
  P s -> P (fst (del gen sched j s)).
Proof.
  intros Hs. unfold del.
  pose proof (lift_cancel sched j Hs) as H.
  destruct (cancel gen sched j s) as [s1 [| e |]]; simpl in *; auto.
Qed.

Lemma lift_unkilled_op (o : op) (s : sys) :
  unkilled_op o -> P s -> P (fst (exec gen o s)).
Proof.
  intros Ho Hs. destruct o; simpl; try contradiction.
  - now apply lift_work.
  - now apply lift_fetch.
  - now apply lift_fetch_all.
  - now apply lift_cancel.
  - now apply lift_del.
  - now apply lift_fetch_first.
  - now apply lift_fetch_resume.
  - now apply P_set_suspended.
Qed.

Lemma lift_unkilled_ops (ops : list op) (s : sys) :
  Forall unkilled_op ops -> P s -> P (run gen ops s).
Proof.
  intros Hops. revert s. induction Hops as [| o ops Ho _ IH]; intros s Hs.
  - assumption.
  - apply IH. now apply lift_unkilled_op.
Qed.

Hypothesis P_kill : forall s, P s -> P (kill s).

Lemma lift_op (o : op) (s : sys) : P s -> P (fst (exec gen o s)).
Proof.
  intros Hs. destruct o; simpl.
  - now apply lift_work.
  - now apply P_kill.
  - now apply lift_fetch.
  - now apply lift_fetch_all.
  - now apply lift_cancel.
  - now apply lift_del.
  - now apply lift_fetch_first.
  - now apply lift_fetch_resume.
  - now apply P_set_suspended.
Qed.

Lemma lift_ops (ops : list op) (s : sys) : P s -> P (run gen ops s).
Proof.
  revert s. induction ops as [| o ops IH]; intros s Hs; [assumption |].
  apply IH. now apply lift_op.
Qed.

End Lifting.

Lemma run_app (gen : generator) (ops1 ops2 : list op) (s : sys) :
  run gen (ops1 ++ ops2) s = run gen ops2 (run gen ops1 s).
Proof. apply fold_left_app. Qed.

(** ** A [for] loop over [fetch()] reaches the end of the generator object *)

Section Exhaust.

Variable gen : generator.

Lemma list_sum_repeat_0 (n : nat) : list_sum (repeat 0 n) = 0.
Proof. induction n; simpl; auto. Qed.

Lemma fetch_loop_not_suspended (sched : list nat) (s : sys) :
  length (pipe_buf s) + list_sum sched < length sched ->
  snd (fetch_loop gen sched s) <> Suspended.
Proof.
  revert s. induction sched as [| k ks IH]; intros s Hlen; simpl in *.
  - lia.
  - destruct (work_view gen k s) as [_ (extra & Hbuf & Hextra)].
    destruct (fetch_iterP (work gen k s))
      as [? ? | ? ? | d rest Hb ? | d rest Hb ? | d rest Hb ? | d rest Hb ?];
      simpl; try discriminate.
    apply IH. simpl.
    rewrite Hbuf in Hb. apply (f_equal (@length _)) in Hb.
    rewrite length_app in Hb. simpl in Hb. lia.
Qed.

Lemma exhaust_long (sched : list nat) (s : sys) :
  length (pipe_buf s) + list_sum (exhaust sched s) < length (exhaust sched s).
Proof.
  unfold exhaust.
  rewrite list_sum_app, list_sum_repeat_0, length_app, repeat_length. lia.
Qed.

(** [fetch_all] always comes back, by [return] or by [raise]. *)
Lemma fetch_all_not_suspended (sched : list nat) (s : sys) :
  snd (fetch_all gen sched s) <> Suspended.
Proof.
  unfold fetch_all, fetch.
  destruct (exhaust sched s) as [| k ks] eqn:E.
  - unfold exhaust in E. apply (f_equal (@length _)) in E.
    rewrite length_app, repeat_length in E. simpl in E. lia.
  - destruct (completed s || canceled s); [discriminate |].
    rewrite <- E. apply fetch_loop_not_suspended, exhaust_long.
Qed.

End Exhaust.

(** ** Draining a buffer that starts with items *)

Section Drain.

Variable gen : generator.

Lemma fetch_loop_cons (k : nat) (ks : list nat) (s : sys) :
  fetch_loop gen (k :: ks) s = resume_then gen ks (work gen k s).
Proof. reflexivity. Qed.

Lemma fetch_iter_item (s : sys) (d : pyval) (rest : list pyval) :
  pipe_buf s = d :: rest -> is_item d ->
  fetch_iter s = (log_yield d (received d rest s), IterYield d).
Proof.
  intros Hbuf Hd. apply classify_item in Hd.
  destruct (fetch_iterP s)
    as [E ? | E ? | d' r' E Hc | d' r' E Hc | d' r' E Hc | d' r' E Hc];
    rewrite Hbuf in E; try discriminate E;
    injection E as <- <-; try congruence.
Qed.

(** The items at the head of the buffer are yielded one per resumption,
    whatever the worker does meanwhile. *)
Lemma fetch_loop_items (pre : list pyval) :
  forall (sched : list nat) (s : sys) (post : list pyval),
    length pre < length sched ->
    pipe_buf s = pre ++ post ->
    Forall is_item pre ->
    exists ks s1,
      fetch_loop gen sched s = resume_then gen ks s1 /\
      consumed pre post s s1.
Proof.
  induction pre as [| v pre IH]; intros sched s post Hlen Hbuf Hitems;
    destruct sched as [| k ks]; simpl in Hlen; try lia.
  - exists ks, (work gen k s). split; [reflexivity |].
    destruct (work_view gen k s)
      as [(H1 & H2 & H3 & H4 & H5 & H6 & H7 & H8 & H9) (extra & Hb & _)].
    unfold consumed. rewrite !app_nil_r.
    repeat (split; [assumption |]).
    split.
    + exists extra. now rewrite Hb, Hbuf.
    + intros Hex. rewrite (work_exited gen k Hex). auto.
  - inversion Hitems as [| ? ? Hv Hpre]; subst.
    destruct (work_view gen k s)
      as [(H1 & H2 & H3 & H4 & H5 & H6 & H7 & H8 & H9) (extra & Hb & _)].
    rewrite Hbuf in Hb. simpl in Hb. rewrite <- app_assoc in Hb.
    rewrite fetch_loop_cons. unfold resume_then.
    rewrite (fetch_iter_item _ Hb Hv).
    set (s2 := log_yield v (received v (pre ++ post ++ extra) (work gen k s))).
    destruct (IH ks s2 (post ++ extra)) as (ks' & s1 & Heq & Hc);
      [lia | reflexivity | assumption |].
    exists ks', s1. split; [exact Heq |].
    destruct Hc as (C1 & C2 & C3 & C4 & C5 & C6 & C7 & C8 & C9 & C10 & C11).
    subst s2. simpl in *.
    unfold consumed.
    rewrite C1, C2, C3, C4, C5, C6, C7, C8, C9, H1, H2, H3, H4, H5, H6, H7,
      H8, H9, <- !app_assoc. simpl.
    repeat (split; [reflexivity |]).
    split.
    + destruct C10 as (extra' & E'). exists (extra ++ extra').
      now rewrite E', <- app_assoc.
    + intros Hex. pose proof (work_exited gen k Hex) as Hw.
      rewrite Hw in Hb. rewrite Hbuf in Hb.
      assert (extra = []) as ->.
      { apply (f_equal (@length _)) in Hb. simpl in Hb.
        rewrite !length_app in Hb. destruct extra; simpl in *; [easy | lia]. }
      rewrite app_nil_r in C11.
      rewrite Hw in C11. apply C11. exact Hex.
Qed.

Lemma fetch_iter_completed (s : sys) (d : pyval) (rest : list pyval) :
  pipe_buf s = d :: rest -> classify d = KCompleted ->
  fetch_iter s = (set_completed (received d rest s), IterReturn).
Proof.
  intros Hbuf Hd.
  destruct (fetch_iterP s)
    as [E ? | E ? | d' r' E Hc | d' r' E Hc | d' r' E Hc | d' r' E Hc];
    rewrite Hbuf in E; try discriminate E;
    injection E as <- <-; congruence.
Qed.

Lemma fetch_iter_cancelled (s : sys) (d : pyval) (rest : list pyval) :
  pipe_buf s = d :: rest -> classify d = KCancelled ->
  fetch_iter s = (set_canceled (received d rest s), IterReturn).
Proof.
  intros Hbuf Hd.
  destruct (fetch_iterP s)
    as [E ? | E ? | d' r' E Hc | d' r' E Hc | d' r' E Hc | d' r' E Hc];
    rewrite Hbuf in E; try discriminate E;
    injection E as <- <-; congruence.
Qed.

Lemma fetch_iter_failed (s : sys) (d : pyval) (rest : list pyval) :
  pipe_buf s = d :: rest -> classify d = KFailed ->
  fetch_iter s = (log_raise d (received d rest s), IterRaise d).
Proof.
  intros Hbuf Hd.
  destruct (fetch_iterP s)
    as [E ? | E ? | d' r' E Hc | d' r' E Hc | d' r' E Hc | d' r' E Hc];
    rewrite Hbuf in E; try discriminate E;
    injection E as <- <-; congruence.
Qed.

Lemma fetch_iter_eof (s : sys) :
  pipe_buf s = [] -> pipe_closed s = true ->
  fetch_iter s = (set_canceled s, IterReturn).
Proof.
  intros Hbuf Hc.
  destruct (fetch_iterP s)
    as [E ? | E ? | d' r' E ? | d' r' E ? | d' r' E ? | d' r' E ?];
    rewrite Hbuf in E; try discriminate E; congruence.
Qed.

Lemma fetch_iter_nothing (s : sys) :
  pipe_buf s = [] -> pipe_closed s = false ->
  fetch_iter s = (s, IterReturn).
Proof.
  intros Hbuf Hc.
  destruct (fetch_iterP s)
    as [E ? | E ? | d' r' E ? | d' r' E ? | d' r' E ? | d' r' E ?];
    rewrite Hbuf in E; try discriminate E; congruence.
Qed.

Lemma exhaust_length (sched : list nat) (s : sys) :
  length (pipe_buf s) < length (exhaust sched s).
Proof.
  unfold exhaust. rewrite length_app, repeat_length. lia.
Qed.

(** A call that starts with both status attributes false enters the loop. *)
Lemma fetch_all_enters (sched : list nat) (s : sys) :
  completed s = false -> canceled s = false ->
  fetch_all gen sched s = fetch_loop gen (exhaust sched s) s.
Proof.
  intros Hc Hk. unfold fetch_all, fetch.
  pose proof (exhaust_length sched s) as Hlen.
  destruct (exhaust sched s); [simpl in Hlen; lia |].
  now rewrite Hc, Hk.
Qed.

(** Items, then a sentinel: the call yields the items, reads the sentinel
    and returns. *)
Lemma fetch_all_items (sched : list nat) (s : sys) (pre post : list pyval) :
  completed s = false -> canceled s = false ->
  pipe_buf s = pre ++ post -> Forall is_item pre ->
  exists ks s1,
    fetch_all gen sched s = resume_then gen ks s1 /\ consumed pre post s s1.
Proof.
  intros Hc Hk Hbuf Hpre. rewrite (fetch_all_enters sched s Hc Hk).
  apply fetch_loop_items; [| assumption | assumption].
  pose proof (exhaust_length sched s) as Hlen.
  rewrite Hbuf, length_app in Hlen. lia.
Qed.

End Drain.

(** C5.  When the drain of a [fetch] call meets a [StopIteration] instance
    after the items [pre], the call has yielded [pre], sets [completed],
    leaves [canceled] alone and returns; with an [EarlyCancellationError]
    instance it sets [canceled] instead.  In both cases the call has
    received [pre] and the sentinel and nothing else: what was behind the
    sentinel is still in the pipe. *)
Theorem C5_sentinel_ends_the_drain
  (gen : generator) (sched : list nat) (s : sys)
  (pre post : list pyval) (t : pyval) :
  completed s = false -> canceled s = false ->
  pipe_buf s = pre ++ t :: post -> Forall is_item pre ->
  classify t = KCompleted \/ classify t = KCancelled ->
  let s' := fst (fetch_all gen sched s) in
  snd (fetch_all gen sched s) = Returned /\
  (classify t = KCompleted -> completed s' = true /\ canceled s' = false) /\
  (classify t = KCancelled -> canceled s' = true /\ completed s' = false) /\
  pipe_recvd s' = pipe_recvd s ++ pre ++ [t] /\
  yielded s' = yielded s ++ pre /\
  raised s' = raised s /\
  exists extra, pipe_buf s' = post ++ extra.
Proof.
  intros Hc Hk Hbuf Hpre Ht.
  destruct (fetch_all_items gen sched s (t :: post) Hc Hk Hbuf Hpre)
    as (ks & s1 & Heq & Hcons).
  destruct Hcons
    as (C1 & C2 & _ & _ & C5 & C6 & C7 & _ & _ & (extra & C10) & _).
  simpl in C10. cbv zeta. rewrite Heq. unfold resume_then.
  destruct Ht as [Ht | Ht].
  - rewrite (fetch_iter_completed _ C10 Ht). simpl.
    rewrite C2, C5, C6, C7, Hk, <- app_assoc.
    repeat split; try congruence. now exists extra.
  - rewrite (fetch_iter_cancelled _ C10 Ht). simpl.
    rewrite C1, C5, C6, C7, Hc, <- app_assoc.
    repeat split; try congruence. now exists extra.
Qed.

(** The worker is gone and only items are left in the closed pipe. *)
Lemma fetch_all_closed (gen : generator) (sched : list nat) (s : sys) :
  completed s = false -> canceled s = false ->
  exited s -> pipe_closed s = true -> Forall is_item (pipe_buf s) ->
  let s' := fst (fetch_all gen sched s) in
  snd (fetch_all gen sched s) = Returned /\
  canceled s' = true /\ completed s' = false /\
  raised s' = raised s /\
  yielded s' = yielded s ++ pipe_buf s /\
  pipe_buf s' = [].
Proof.
  intros Hc Hk Hex Hclosed Hitems.
  destruct (fetch_all_items gen sched s (pre := pipe_buf s) [] Hc Hk)
    as (ks & s1 & Heq & Hcons); [now rewrite app_nil_r | assumption |].
  destruct Hcons as (C1 & _ & _ & _ & _ & C6 & C7 & _ & _ & _ & C11).
  destruct (C11 Hex) as (Hb1 & _ & Hc1).
  cbv zeta. rewrite Heq. unfold resume_then.
  rewrite fetch_iter_eof by congruence. simpl.
  repeat split; congruence.
Qed.

(** After the worker has gone, one drain receives all that is left: the
    items [pre] and the terminal message, if there is one. *)
Lemma fetch_all_drains
  (gen : generator) (sched : list nat) (s : sys) (pre post : list pyval) :
  completed s = false -> canceled s = false ->
  exited s -> pipe_closed s = true ->
  pipe_buf s = pre ++ post -> Forall is_item pre ->
  (post = [] \/ exists t, post = [t] /\ ~ is_item t) ->
  pipe_recvd (fst (fetch_all gen sched s)) = pipe_recvd s ++ pre ++ post.
Proof.
  intros Hc Hk Hex Hclosed Hbuf Hpre Hpost.
  destruct (fetch_all_items gen sched s post Hc Hk Hbuf Hpre)
    as (ks & s1 & Heq & Hcons).
  destruct Hcons as (_ & _ & _ & _ & C5 & _ & _ & _ & _ & _ & C11).
  destruct (C11 Hex) as (Hb1 & _ & Hc1).
  rewrite Heq. unfold resume_then.
  destruct Hpost as [-> | (t & -> & Ht)].
  - rewrite fetch_iter_eof by congruence. simpl.
    now rewrite C5, app_nil_r.
  - rewrite <- classify_item in Ht.
    destruct (fetch_iterP s1)
      as [E ? | E ? | d r E Hd | d r E Hd | d r E Hd | d r E Hd];
      rewrite Hb1 in E; try discriminate E; injection E as <- <-;
      try congruence; simpl; now rewrite C5, <- app_assoc.
Qed.

(** C6.  The worker is gone and the pipe is closed with only items left in
    it (no terminal message was sent): the call yields the items, then sets
    [canceled] and returns; nothing is raised and [completed] stays
    false. *)
Theorem C6_closed_pipe_is_cancellation
  (gen : generator) (sched : list nat) (s : sys) :
  completed s = false -> canceled s = false ->
  exited s -> pipe_closed s = true -> Forall is_item (pipe_buf s) ->
  let s' := fst (fetch_all gen sched s) in
  snd (fetch_all gen sched s) = Returned /\
  canceled s' = true /\ completed s' = false /\
  raised s' = raised s /\
  yielded s' = yielded s ++ pipe_buf s /\
  pipe_buf s' = [].
Proof. apply fetch_all_closed. Qed.

(** ** The cancellation flag *)

Ltac iter_cases s :=
  destruct (fetch_iterP s) as [? ? | ? ? | ? ? ? ? | ? ? ? ? | ? ? ? ? | ? ? ? ?];
  simpl.

Section Flag.

Variable gen : generator.

Lemma kill_view (s : sys) : same_caller_view s (kill s).
Proof.
  unfold kill, same_caller_view. destruct (worker s); simpl; tauto.
Qed.

Lemma fetch_op_keeps_flag (b : bool) (o : op) (s : sys) :
  fetch_op o -> should_terminate_flag s = b ->
  should_terminate_flag (fst (exec gen o s)) = b.
Proof.
  apply (lift_fetch_op gen (fun s' => should_terminate_flag s' = b)).
  - intros s' H. destruct (worker_step_view gen s') as [(_ & _ & _ & E & _) _].
    congruence.
  - intros s' H. iter_cases s'; assumption.
  - intros n s' H. exact H.
Qed.

Lemma join_flag (j : nat) (s : sys) :
  should_terminate_flag (join gen j s) = should_terminate_flag s.
Proof.
  unfold join. destruct (process s); [| reflexivity]. simpl.
  now destruct (work_view gen j s) as [(_ & _ & _ & E & _) _].
Qed.

Lemma flag_stays_set (ops : list op) (s : sys) :
  should_terminate_flag s = true ->
  should_terminate_flag (run gen ops s) = true.
Proof.
  apply (lift_ops gen (fun s' => should_terminate_flag s' = true)).
  - intros s' H. destruct (worker_step_view gen s') as [(_ & _ & _ & E & _) _].
    congruence.
  - intros s' H. iter_cases s'; assumption.
  - intros n s' H. exact H.
  - reflexivity.
  - intros s' H. exact H.
  - intros s' H _. exact H.
  - intros s' H. destruct (kill_view s') as (_ & _ & _ & E & _). congruence.
Qed.

Lemma cancel_flag (sched : list nat) (j : nat) (s : sys) :
  should_terminate_flag (fst (cancel gen sched j s)) =
  should_terminate_flag s || negb (completed s || canceled s).
Proof.
  unfold cancel. destruct (completed s || canceled s); simpl.
  - rewrite join_flag. now rewrite orb_false_r.
  - rewrite orb_true_r.
    assert (should_terminate_flag (fst (fetch_all gen sched (set_flag s)))
            = true) as H.
    { apply (fetch_op_keeps_flag (b := true) (OFetchAll sched)); simpl; auto. }
    destruct (fetch_all gen sched (set_flag s)) as [s1 [| e |]]; simpl in *;
      rewrite ?join_flag; assumption.
Qed.

(** C9.  The flag starts false; an operation leaves it as it is, except
    [cancel] (also through [__del__]) on a proxy that is neither completed
    nor canceled, which sets it; once true it stays true through every
    operation of either side. *)
Theorem C9_cancellation_flag_monotonic :
  should_terminate_flag init = false /\
  (forall o s,
      should_terminate_flag (fst (exec gen o s)) =
      should_terminate_flag s
      || (is_cancel o && negb (completed s || canceled s))) /\
  (forall ops s,
      should_terminate_flag s = true ->
      should_terminate_flag (run gen ops s) = true).
Proof.
  split; [reflexivity |]. split; [| apply flag_stays_set].
  intros o s.
  destruct o; simpl is_cancel; rewrite ?orb_false_r;
    try (apply fetch_op_keeps_flag; simpl; auto; fail).
  - simpl. now destruct (kill_view s) as (_ & _ & _ & E & _).
  - simpl. apply cancel_flag.
  - simpl. unfold del. pose proof (cancel_flag sched j s) as H.
    destruct (cancel gen sched j s) as [s1 [| e |]]; simpl in *; assumption.
Qed.

End Flag.

(** ** [completed] and [canceled] *)

Section Status.

Variable gen : generator.

Lemma fetch_loop_exclusive (sched : list nat) (s : sys) :
  completed s = false -> canceled s = false ->
  completed (fst (fetch_loop gen sched s))
  && canceled (fst (fetch_loop gen sched s)) = false.
Proof.
  revert s. induction sched as [| k ks IH]; intros s Hc Hk; simpl.
  - now rewrite Hc.
  - destruct (work_view gen k s) as [(E1 & E2 & _) _].
    rewrite <- E1 in Hc. rewrite <- E2 in Hk.
    iter_cases (work gen k s); rewrite ?Hc, ?Hk; try reflexivity.
    apply IH; assumption.
Qed.

Lemma fetch_exclusive (sched : list nat) (s : sys) :
  completed s && canceled s = false ->
  completed (fst (fetch gen sched s))
  && canceled (fst (fetch gen sched s)) = false.
Proof.
  intros H. unfold fetch. destruct sched as [| k ks]; [assumption |].
  destruct (completed s || canceled s) eqn:Ht; [assumption |].
  apply orb_false_elim in Ht. now apply fetch_loop_exclusive.
Qed.

Lemma fetch_terminal (sched : list nat) (s : sys) :
  completed s || canceled s = true ->
  fst (fetch gen sched s) = s /\
  forall x, snd (fetch gen sched s) <> Raised x.
Proof.
  intros H. unfold fetch. destruct sched; [split; [auto | discriminate] |].
  rewrite H. split; [auto | discriminate].
Qed.

Lemma fetch_all_terminal (sched : list nat) (s : sys) :
  completed s || canceled s = true ->
  fetch_all gen sched s = (s, Returned).
Proof.
  intros H. unfold fetch_all, fetch.
  pose proof (exhaust_length sched s) as Hlen.
  destruct (exhaust sched s); [simpl in Hlen; lia |].
  now rewrite H.
Qed.

Lemma join_view (j : nat) (s : sys) :
  completed (join gen j s) = completed s /\
  canceled (join gen j s) = canceled s /\
  should_terminate_flag (join gen j s) = should_terminate_flag s /\
  pipe_recvd (join gen j s) = pipe_recvd s /\
  yielded (join gen j s) = yielded s /\
  raised (join gen j s) = raised s /\
  suspended (join gen j s) = suspended s /\
  process (join gen j s) = None /\
  joins (join gen j s) =
    match process s with Some _ => S (joins s) | None => joins s end.
Proof.
  unfold join. destruct (process s) eqn:Hp; simpl; [| tauto].
  destruct (work_view gen j s)
    as [(H1 & H2 & H3 & H4 & H5 & H6 & H7 & H8 & H9) _].
  rewrite H1, H2, H4, H5, H6, H7, H8, H9. tauto.
Qed.

Lemma cancel_terminal (sched : list nat) (j : nat) (s : sys) :
  completed s || canceled s = true ->
  cancel gen sched j s = (join gen j s, Returned).
Proof.
  intros H. unfold cancel. now rewrite H.
Qed.

Lemma cancel_exclusive (sched : list nat) (j : nat) (s : sys) :
  completed s && canceled s = false ->
  completed (fst (cancel gen sched j s))
  && canceled (fst (cancel gen sched j s)) = false.
Proof.
  intros H. unfold cancel.
  destruct (completed s || canceled s) eqn:Ht; simpl.
  - destruct (join_view j s) as (E1 & E2 & _). now rewrite E1, E2.
  - pose proof (fetch_exclusive (exhaust sched (set_flag s)) (set_flag s) H)
      as H'.
    fold (fetch_all gen sched (set_flag s)) in H'.
    destruct (fetch_all gen sched (set_flag s)) as [s1 [| e |]];
      simpl in *; try assumption;
      destruct (join_view j s1) as (E1 & E2 & _); now rewrite E1, E2.
Qed.

Lemma sequential_op_exclusive (o : op) (s : sys) :
  sequential_op o ->
  completed s && canceled s = false ->
  completed (fst (exec gen o s)) && canceled (fst (exec gen o s)) = false.
Proof.
  intros Ho H. destruct o; simpl in *; try contradiction.
  - destruct (work_view gen k s) as [(E1 & E2 & _) _]. now rewrite E1, E2.
  - destruct (kill_view s) as (E1 & E2 & _). now rewrite E1, E2.
  - now apply fetch_exclusive.
  - now apply fetch_exclusive.
  - now apply cancel_exclusive.
  - unfold del. pose proof (cancel_exclusive sched j s H) as H'.
    destruct (cancel gen sched j s) as [s1 [| e |]]; simpl in *; assumption.
Qed.

Lemma sequential_op_terminal (o : op) (s : sys) :
  sequential_op o ->
  completed s || canceled s = true ->
  completed (fst (exec gen o s)) = completed s /\
  canceled (fst (exec gen o s)) = canceled s.
Proof.
  intros Ho H. destruct o; simpl in *; try contradiction.
  - destruct (work_view gen k s) as [(E1 & E2 & _) _]. now rewrite E1, E2.
  - destruct (kill_view s) as (E1 & E2 & _). now rewrite E1, E2.
  - destruct (fetch_terminal sched s H) as [E _]. now rewrite E.
  - now rewrite fetch_all_terminal.
  - rewrite cancel_terminal by assumption. simpl.
    destruct (join_view j s) as (E1 & E2 & _). now rewrite E1, E2.
  - unfold del. rewrite cancel_terminal by assumption. simpl.
    destruct (join_view j s) as (E1 & E2 & _). now rewrite E1, E2.
Qed.

Lemma sequential_ops_terminal (ops : list op) (s : sys) :
  Forall sequential_op ops ->
  completed s || canceled s = true ->
  completed (run gen ops s) = completed s /\
  canceled (run gen ops s) = canceled s.
Proof.
  intros Hops. revert s. induction Hops as [| o ops Ho _ IH]; intros s H.
  - auto.
  - destruct (sequential_op_terminal o s Ho H) as [E1 E2].
    simpl. destruct (IH (fst (exec gen o s))) as [E3 E4].
    + now rewrite E1, E2.
    + unfold run in *. now rewrite E3, E4.
Qed.

Lemma sequential_ops_exclusive (ops : list op) (s : sys) :
  Forall sequential_op ops ->
  completed s && canceled s = false ->
  completed (run gen ops s) && canceled (run gen ops s) = false.
Proof.
  intros Hops. revert s. induction Hops as [| o ops Ho _ IH]; intros s H.
  - assumption.
  - simpl. apply IH. now apply sequential_op_exclusive.
Qed.

(** X12.  When the calls on the proxy are made one after the other (every
    generator object returned by [fetch()] is iterated by a [for] loop
    before the next call), [completed] and [canceled] are never both true;
    once one of them is true neither changes any more, and a [fetch] call
    made from then on returns at once: it yields nothing, raises nothing
    and leaves the whole state as it is. *)
Theorem X12_status_exclusive_in_sequential_use (ops : list op) :
  Forall sequential_op ops ->
  let s := run gen ops init in
  completed s && canceled s = false /\
  (completed s || canceled s = true ->
   (forall ops', Forall sequential_op ops' ->
                 completed (run gen ops' s) = completed s /\
                 canceled (run gen ops' s) = canceled s) /\
   (forall sched, fetch_all gen sched s = (s, Returned)) /\
   (forall sched, fst (fetch gen sched s) = s /\
                  forall x, snd (fetch gen sched s) <> Raised x) /\
   fetch_first s = (s, Returned)).
Proof.
  intros Hops s. split.
  - now apply sequential_ops_exclusive.
  - intros Ht. repeat split.
    + now apply sequential_ops_terminal.
    + now apply sequential_ops_terminal.
    + intros sched. now apply fetch_all_terminal.
    + now apply fetch_terminal.
    + now apply fetch_terminal.
    + unfold fetch_first. now rewrite Ht.
Qed.

(** C7, as the code has it.  On a proxy that is completed or canceled,
    [cancel] raises nothing and touches neither the status attributes, nor
    the flag, nor the pipe; it joins the worker when the handle is still
    held and releases the handle.  A proxy whose handle is released is left
    exactly as it is, so every later [cancel] changes nothing; and no run
    joins the worker twice. *)
Theorem C7_cancel_after_terminal_state :
  (forall ops, joins (run gen ops init) <= 1) /\
  (forall sched j s,
      completed s || canceled s = true ->
      let s' := fst (cancel gen sched j s) in
      snd (cancel gen sched j s) = Returned /\
      completed s' = completed s /\ canceled s' = canceled s /\
      should_terminate_flag s' = should_terminate_flag s /\
      pipe_recvd s' = pipe_recvd s /\ yielded s' = yielded s /\
      raised s' = raised s /\
      process s' = None /\
      joins s' = match process s with
                 | Some _ => S (joins s)
                 | None => joins s
                 end /\
      (process s = None -> s' = s) /\
      (forall sched' j', cancel gen sched' j' s' = (s', Returned))).
Proof.
  split.
  - intros ops.
    assert (match process (run gen ops init) with
            | Some _ => joins (run gen ops init) = 0
            | None => joins (run gen ops init) <= 1
            end) as H.
    { apply (lift_ops gen (fun s => match process s with
                                    | Some _ => joins s = 0
                                    | None => joins s <= 1
                                    end)).
      - intros s H.
        destruct (worker_step_view gen s)
          as [(_ & _ & E1 & _ & _ & _ & _ & E2 & _) _].
        now rewrite E1, E2.
      - intros s H. iter_cases s; assumption.
      - intros n s H. exact H.
      - intros s H. exact H.
      - intros s H. simpl. destruct (process s); lia.
      - intros s H Hp. simpl. destruct (process s); [lia | congruence].
      - intros s H. destruct (kill_view s)
          as (_ & _ & E1 & _ & _ & _ & _ & E2 & _).
        now rewrite E1, E2.
      - reflexivity. }
    destruct (process (run gen ops init)); lia.
  - intros sched j s Ht s'. subst s'.
    rewrite cancel_terminal by assumption. simpl.
    destruct (join_view j s)
      as (E1 & E2 & E3 & E4 & E5 & E6 & E7 & E8 & E9).
    split; [reflexivity |].
    repeat (split; [assumption |]).
    split.
    + intros Hp. unfold join. now rewrite Hp.
    + intros sched' j'. rewrite cancel_terminal by now rewrite E1, E2.
      unfold join at 1. now rewrite E8.
Qed.

End Status.

(** ** The wrapper *)

Lemma fetch_iter_worker_side (s : sys) :
  worker (fst (fetch_iter s)) = worker s /\
  pipe_closed (fst (fetch_iter s)) = pipe_closed s /\
  pipe_sent (fst (fetch_iter s)) = pipe_sent s /\
  should_terminate_flag (fst (fetch_iter s)) = should_terminate_flag s.
Proof.
  unfold pipe_sent.
  iter_cases s; repeat split; try reflexivity;
    match goal with
    | H : pipe_buf s = _ |- _ => rewrite H, <- app_assoc; reflexivity
    end.
Qed.

Section Wrapper.

Variable gen : generator.

Lemma steps_left_exited (items : list pyval) (s : sys) :
  steps_left items s = 0 -> exited s.
Proof.
  unfold steps_left, exited. destruct (worker s); try lia. eauto.
Qed.

Lemma steps_left_init (items : list pyval) (s : sys) :
  in_range items s -> steps_left items s <= 3 * length items + 3.
Proof.
  unfold in_range, steps_left. destruct (worker s); lia.
Qed.

Lemma worker_step_progress (items : list pyval) (ending : gen_end) (s : sys) :
  produces gen items ending ->
  in_range items s ->
  in_range items (worker_step gen s) /\
  (steps_left items (worker_step gen s) < steps_left items s \/ exited s).
Proof.
  intros Hprod. unfold in_range, steps_left, worker_step, exited.
  destruct (worker s) as [i | d i | d i | e | | p | h] eqn:Hw; intros Hr.
  - destruct (for_next gen i) as [v | | e] eqn:Hg;
      [| | destruct (issubclass (exc_class e) Exception)]; simpl; try lia.
    apply for_next_yield_inv in Hg. rewrite (Hprod i Hr) in Hg.
    unfold list_gen in Hg. destruct (nth_error items i) eqn:Hn.
    + assert (i < length items) by (apply nth_error_Some; congruence).
      lia.
    + destruct ending; discriminate Hg.
  - destruct (should_terminate_flag s); simpl; lia.
  - simpl. lia.
  - simpl. lia.
  - simpl. lia.
  - simpl. lia.
  - rewrite Hw. split; [exact I | eauto].
Qed.

Lemma work_exits (items : list pyval) (ending : gen_end) (n : nat) :
  produces gen items ending ->
  forall s, in_range items s -> steps_left items s <= n ->
            exited (work gen n s).
Proof.
  intros Hprod. induction n as [| n IH]; intros s Hr Hn; simpl.
  - apply (steps_left_exited items). lia.
  - destruct (worker_step_progress s Hprod Hr) as [Hr' [Hlt | Hex]].
    + apply IH; [assumption | lia].
    + rewrite worker_step_exited by assumption.
      now rewrite work_exited.
Qed.

Lemma in_range_ops (items : list pyval) (ending : gen_end) (ops : list op) :
  produces gen items ending -> in_range items (run gen ops init).
Proof.
  intros Hprod.
  apply (lift_ops gen (in_range items)).
  - intros s H. now destruct (worker_step_progress s Hprod H).
  - intros s H. unfold in_range.
    destruct (fetch_iter_worker_side s) as (E & _). now rewrite E.
  - intros n s H. exact H.
  - intros s H. exact H.
  - intros s H. exact H.
  - intros s H _. exact H.
  - intros s H. unfold kill, in_range. destruct (worker s); simpl; auto.
  - unfold in_range. simpl. lia.
Qed.

(** Whatever the caller does, the wrapper over a generator that stops
    after [items] has left after [3 * length items + 3] more steps. *)
Lemma wrapper_terminates
  (items : list pyval) (ending : gen_end) (ops : list op) (n : nat) :
  produces gen items ending ->
  3 * length items + 3 <= n ->
  exited (work gen n (run gen ops init)).
Proof.
  intros Hprod Hn.
  pose proof (in_range_ops ops Hprod) as Hr.
  apply (work_exits Hprod); [assumption |].
  pose proof (steps_left_init _ _ Hr). lia.
Qed.

Hypothesis Hplain : plain_items gen.

Lemma no_terminal_snoc (sent : list pyval) (v : pyval) :
  no_terminal sent -> is_item v -> no_terminal (sent ++ [v]).
Proof.
  intros Hs Hv. apply Forall_app. split; [assumption | now constructor].
Qed.

Lemma one_terminal_snoc (sent : list pyval) (e : pyexc) :
  no_terminal sent -> issubclass (exc_class e) Exception = true ->
  one_terminal_last (sent ++ [PyExc e]).
Proof.
  intros Hs He. exists sent, (PyExc e). repeat split; [assumption |].
  now apply classify_exception.
Qed.

Lemma wrapper_inv_worker_step (s : sys) :
  wrapper_inv s -> wrapper_inv (worker_step gen s).
Proof.
  unfold wrapper_inv, worker_step, pipe_sent.
  destruct (worker s) as [i | d i | d i | e | | [e |] | [| e |]] eqn:Hw;
    simpl; rewrite ?Hw.
  - intros [Hc Hs]. destruct (for_next gen i) as [v | | e] eqn:Hg; simpl.
    + repeat split; try assumption. apply for_next_yield_inv in Hg.
      now apply (Hplain Hg).
    + auto.
    + destruct (issubclass (exc_class e) Exception) eqn:He; simpl; auto.
  - intros (Hd & Hc & Hs). destruct (should_terminate_flag s); simpl; auto.
  - intros (Hd & Hc & Hs). rewrite app_assoc. split; [assumption |].
    now apply no_terminal_snoc.
  - intros (He & Hc & Hs). rewrite app_assoc. split; [assumption |].
    now apply one_terminal_snoc.
  - intros (Hc & Hs). rewrite app_assoc. split; [assumption |].
    now apply one_terminal_snoc.
  - intros (He & Hc & Hs). auto.
  - intros (Hc & Hs). auto.
  - auto.
  - auto.
  - auto.
Qed.

Lemma wrapper_inv_fetch_iter (s : sys) :
  wrapper_inv s -> wrapper_inv (fst (fetch_iter s)).
Proof.
  unfold wrapper_inv.
  destruct (fetch_iter_worker_side s) as (E1 & E2 & E3 & _).
  now rewrite E1, E2, E3.
Qed.

Lemma wrapper_inv_ops (ops : list op) :
  Forall unkilled_op ops -> wrapper_inv (run gen ops init).
Proof.
  intros Hops.
  apply (lift_unkilled_ops gen wrapper_inv).
  - apply wrapper_inv_worker_step.
  - apply wrapper_inv_fetch_iter.
  - intros n s H. exact H.
  - intros s H. exact H.
  - intros s H. exact H.
  - intros s H _. exact H.
  - assumption.
  - unfold wrapper_inv, no_terminal. simpl. auto.
Qed.

(** C4, as the code has it.  Over a generator none of whose items is an
    [Exception] instance, and with nobody killing the worker: at most one
    terminal message is ever sent and nothing is sent behind it; the pipe
    is closed exactly when the wrapper has left; a wrapper that left after
    its [try] statement handled everything has sent exactly one terminal
    message, as the last one; a wrapper that left on an exception outside
    the [Exception] hierarchy has sent none.  Over a generator that stops
    the wrapper does leave. *)
Theorem C4_one_terminal_message_sent_last (ops : list op) :
  Forall unkilled_op ops ->
  let s := run gen ops init in
  (no_terminal (pipe_sent s) \/ one_terminal_last (pipe_sent s)) /\
  (exited s <-> pipe_closed s = true) /\
  (worker s = WExited ExitOk -> one_terminal_last (pipe_sent s)) /\
  (forall e, worker s = WExited (ExitUncaught e) ->
             no_terminal (pipe_sent s) /\
             issubclass (exc_class e) Exception = false) /\
  worker s <> WExited ExitKilled /\
  (forall items ending n,
      produces gen items ending -> 3 * length items + 3 <= n ->
      exited (work gen n s)).
Proof.
  intros Hops s. pose proof (wrapper_inv_ops Hops) as H. fold s in H.
  unfold wrapper_inv in H. unfold exited.
  split; [| split; [split |]]; [| | | split; [| split; [| split]]].
  - destruct (worker s) as [i | d i | d i | e | | [e |] | [| e |]];
      tauto.
  - intros [how Hw]. rewrite Hw in H. destruct how; tauto.
  - intros Hc.
    destruct (worker s) as [i | d i | d i | e | | [e |] | [| e |]];
      try (destruct H as (? & ?); congruence);
      try (destruct H as (? & ? & ?); congruence); eauto.
  - intros Hw. rewrite Hw in H. tauto.
  - intros e Hw. rewrite Hw in H. tauto.
  - intros Hw. rewrite Hw in H. exact H.
  - intros items ending n Hprod Hn. now apply (wrapper_terminates ops Hprod).
Qed.

End Wrapper.

(** ** The wrapper sees the generator through the [for] statement only *)

Lemma for_next_idem (gen : generator) (i : nat) :
  for_next (for_next gen) i = for_next gen i.
Proof.
  unfold for_next at 1.
  destruct (for_next gen i) as [v | | e] eqn:Hg; try reflexivity.
  apply for_next_raise in Hg. destruct Hg as [_ [Hs | ->]].
  - now rewrite Hs.
  - now destruct (issubclass (exc_class e) StopIteration).
Qed.

Section SameRequests.

Variables gen gen' : generator.

Hypothesis Hsame : forall i, for_next gen i = for_next gen' i.

Lemma worker_step_ext (s : sys) : worker_step gen s = worker_step gen' s.
Proof.
  unfold worker_step. destruct (worker s); try reflexivity.
  now rewrite Hsame.
Qed.

Lemma work_ext (k : nat) (s : sys) : work gen k s = work gen' k s.
Proof.
  revert s. induction k as [| k IH]; intros s; simpl; [reflexivity |].
  now rewrite worker_step_ext, IH.
Qed.

Lemma fetch_loop_ext (sched : list nat) (s : sys) :
  fetch_loop gen sched s = fetch_loop gen' sched s.
Proof.
  revert s. induction sched as [| k ks IH]; intros s; simpl;
    [reflexivity |].
  rewrite work_ext. destruct (fetch_iter (work gen' k s)) as [s' [v | | e]];
    auto.
Qed.

Lemma fetch_ext (sched : list nat) (s : sys) :
  fetch gen sched s = fetch gen' sched s.
Proof.
  unfold fetch. destruct sched; [reflexivity |].
  now rewrite fetch_loop_ext.
Qed.

Lemma cancel_ext (sched : list nat) (j : nat) (s : sys) :
  cancel gen sched j s = cancel gen' sched j s.
Proof.
  unfold cancel, fetch_all, join. rewrite fetch_ext.
  destruct (negb (completed s || canceled s));
    [destruct (fetch gen' (exhaust sched (set_flag s)) (set_flag s))
       as [s1 [| e |]] |];
    try reflexivity; now rewrite work_ext.
Qed.

Lemma exec_ext (o : op) (s : sys) : exec gen o s = exec gen' o s.
Proof.
  destruct o; simpl; try reflexivity.
  - now rewrite work_ext.
  - apply fetch_ext.
  - apply fetch_ext.
  - apply cancel_ext.
  - unfold del. now rewrite cancel_ext.
Qed.

Lemma run_ext (ops : list op) (s : sys) : run gen ops s = run gen' ops s.
Proof.
  revert s. induction ops as [| o ops IH]; intros s; simpl;
    [reflexivity |].
  now rewrite exec_ext, IH.
Qed.

End SameRequests.

(** A run over [gen] is a run over what the [for] statement makes of
    [gen]. *)
Lemma run_for_next (gen : generator) (ops : list op) (s : sys) :
  run (for_next gen) ops s = run gen ops s.
Proof. apply run_ext. apply for_next_idem. Qed.

Lemma work_for_next (gen : generator) (k : nat) (s : sys) :
  work (for_next gen) k s = work gen k s.
Proof. apply work_ext. apply for_next_idem. Qed.

(** A [StopIteration] that leaves a request behind the first one ends the
    iteration like exhaustion. *)
Lemma late_stop_is_exhaustion
  (gen : generator) (items : list pyval) (e : pyexc) :
  produces gen items (Raises e) -> items <> [] ->
  issubclass (exc_class e) StopIteration = true ->
  produces (for_next gen) items Exhausted.
Proof.
  intros Hprod Hne Hs i Hi. unfold for_next. rewrite (Hprod i Hi).
  unfold list_gen. destruct (nth_error items i) as [v |] eqn:Hn;
    [reflexivity |].
  simpl. rewrite Hs. destruct i; [| reflexivity].
  destruct items; [contradiction | discriminate Hn].
Qed.

(** The body of a generator function that yields [items] and then raises a
    [StopIteration] instance: the iteration ends with a [RuntimeError]. *)
Lemma generator_function_stop
  (body : nat -> gen_event) (items : list pyval) (e : pyexc) :
  produces body items (Raises e) ->
  issubclass (exc_class e) StopIteration = true ->
  produces (generator_function body) items (Raises generator_raised_stop).
Proof.
  intros Hprod Hs i Hi. unfold generator_function. rewrite (Hprod i Hi).
  unfold list_gen. destruct (nth_error items i) as [v |]; [reflexivity |].
  simpl. now rewrite Hs.
Qed.

(** Everything else a generator function does passes unchanged. *)
Lemma generator_function_other
  (body : nat -> gen_event) (items : list pyval) (ending : gen_end) :
  produces body items ending ->
  match ending with
  | Exhausted => True
  | Raises e => issubclass (exc_class e) StopIteration = false
  end ->
  produces (generator_function body) items ending.
Proof.
  intros Hprod Hend i Hi. unfold generator_function. rewrite (Hprod i Hi).
  unfold list_gen. destruct (nth_error items i) as [v |]; [reflexivity |].
  destruct ending as [| e]; simpl; [reflexivity | now rewrite Hend].
Qed.

(** ** A generator that stops, polled by [fetch] *)

Lemma firstn_snoc (A : Type) (l : list A) (j : nat) (d : A) :
  nth_error l j = Some d -> firstn (S j) l = firstn j l ++ [d].
Proof.
  revert j. induction l as [| a l IH]; intros [| j] H; simpl in *;
    try discriminate.
  - now injection H as ->.
  - f_equal. now apply IH.
Qed.

Lemma terminal_of_shape (ending : gen_end) :
  terminal_of ending = [] \/
  exists t, terminal_of ending = [t] /\ ~ is_item t.
Proof.
  destruct ending as [| e]; simpl.
  - right. exists (PyExc stop_iteration). split; [reflexivity |].
    unfold is_item. simpl. discriminate.
  - destruct (issubclass (exc_class e) Exception) eqn:He; [| now left].
    right. exists (PyExc e). split; [reflexivity |].
    unfold is_item. simpl. congruence.
Qed.

(** The first object that is not an item is the terminal message. *)
Lemma split_at_terminal (A B R T : list pyval) (d : pyval) :
  Forall is_item A -> Forall is_item B -> ~ is_item d ->
  (T = [] \/ exists t, T = [t] /\ ~ is_item t) ->
  A ++ d :: R = B ++ T ->
  A = B /\ R = [] /\ T = [d].
Proof.
  intros HA. revert B. induction HA as [| a A Ha HA IH];
    intros B HB Hd HT Heq.
  - destruct HB as [| b B Hb HB]; simpl in Heq.
    + destruct HT as [-> | (t & -> & Ht)]; [discriminate |].
      injection Heq as -> ->. auto.
    + injection Heq as -> _. contradiction.
  - destruct HB as [| b B Hb HB]; simpl in Heq.
    + destruct HT as [-> | (t & -> & Ht)]; [discriminate |].
      injection Heq as -> _. contradiction.
    + injection Heq as -> Heq.
      destruct (IH B HB Hd HT Heq) as (-> & -> & ->). auto.
Qed.

(** Items received are a prefix of the items of the stream. *)
Lemma items_prefix (A B R T : list pyval) :
  Forall is_item A ->
  (T = [] \/ exists t, T = [t] /\ ~ is_item t) ->
  A ++ R = B ++ T ->
  exists rest, B = A ++ rest /\ R = rest ++ T.
Proof.
  intros HA. revert B. induction HA as [| a A Ha HA IH]; intros B HT Heq.
  - exists B. auto.
  - destruct B as [| b B]; simpl in Heq.
    + destruct HT as [-> | (t & -> & Ht)]; [discriminate |].
      injection Heq as -> _. contradiction.
    + injection Heq as -> Heq.
      destruct (IH B HT Heq) as (rest & -> & ->). exists rest. auto.
Qed.

Lemma app_self_longer (A : Type) (l m n : list A) (d : A) :
  l = (l ++ d :: m) ++ n -> False.
Proof.
  intros H. apply (f_equal (@length _)) in H.
  rewrite !length_app in H. simpl in H. lia.
Qed.

Section Finite.

Variable gen : generator.
Variable items : list pyval.
Variable ending : gen_end.

Hypothesis Hprod : produces gen items ending.
Hypothesis Hend : reaches_try items ending.
Hypothesis Hitems : Forall is_item items.

(** The [for] statement gets the items and then the ending as they
    are. *)
Lemma for_next_produces (i : nat) :
  i <= length items -> for_next gen i = list_gen items ending i.
Proof.
  intros Hi. unfold for_next. rewrite (Hprod Hi). unfold list_gen.
  destruct (nth_error items i) as [v |] eqn:Hn; [reflexivity |].
  pose proof Hend as He. unfold reaches_try in He.
  destruct ending as [| e]; simpl; [reflexivity |].
  destruct (issubclass (exc_class e) StopIteration) eqn:Hs;
    [| reflexivity].
  rewrite (He eq_refl) in Hi. simpl in Hi.
  now replace i with 0 by lia.
Qed.

Lemma wrapper_at_worker_step (s : sys) :
  wrapper_at items ending s -> wrapper_at items ending (worker_step gen s).
Proof.
  unfold wrapper_at, worker_step, pipe_sent, stream.
  intros [Hflag H]. rewrite Hflag.
  destruct (worker s) as [i | d i | d i | e | | p | h] eqn:Hw.
  - destruct H as (Hi & Hs & Hc). rewrite (for_next_produces Hi).
    unfold list_gen.
    destruct (nth_error items i) as [v |] eqn:Hn; simpl.
    + repeat split; try assumption. exists i. auto.
    + apply nth_error_None in Hn.
      assert (i = length items) as -> by lia.
      rewrite firstn_all in Hs.
      destruct ending as [| e]; simpl;
        [| destruct (issubclass (exc_class e) Exception) eqn:He]; simpl;
        repeat split; try assumption.
      now rewrite app_nil_r.
  - simpl. auto.
  - destruct H as ((j & -> & Hn & Hs) & Hc). simpl.
    repeat split; try assumption.
    + apply Nat.le_succ_l, nth_error_Some. congruence.
    + rewrite app_assoc, Hs. symmetry. now apply firstn_snoc.
  - destruct H as (-> & He & Hs & Hc). simpl. rewrite He.
    repeat split; try assumption. now rewrite app_assoc, Hs.
  - destruct H as (-> & Hs & Hc). simpl.
    repeat split; try assumption. now rewrite app_assoc, Hs.
  - destruct H as (Hs & Hc). simpl. auto.
  - rewrite Hw. auto.
Qed.

Lemma wrapper_at_prefix (s : sys) :
  wrapper_at items ending s ->
  exists more, stream items ending = pipe_sent s ++ more.
Proof.
  unfold wrapper_at, stream. intros [_ H].
  destruct (worker s) as [i | d i | d i | e | | p | h].
  - destruct H as (_ & -> & _).
    exists (skipn i items ++ terminal_of ending).
    now rewrite app_assoc, firstn_skipn.
  - destruct H as ((j & _ & _ & ->) & _).
    exists (skipn j items ++ terminal_of ending).
    now rewrite app_assoc, firstn_skipn.
  - destruct H as ((j & _ & _ & ->) & _).
    exists (skipn j items ++ terminal_of ending).
    now rewrite app_assoc, firstn_skipn.
  - destruct H as (_ & _ & -> & _). eauto.
  - destruct H as (_ & -> & _). eauto.
  - destruct H as (-> & _). exists []. now rewrite app_nil_r.
  - destruct H as (-> & _). exists []. now rewrite app_nil_r.
Qed.

Lemma wrapper_at_closed (s : sys) :
  wrapper_at items ending s -> pipe_closed s = true ->
  pipe_sent s = stream items ending /\ exited s.
Proof.
  unfold wrapper_at, exited. intros [_ H] Hc.
  destruct (worker s) as [i | d i | d i | e | | p | h];
    try (destruct H as (? & ? & ? & ?); congruence);
    try (destruct H as (? & ? & ?); congruence);
    try (destruct H as (? & ?); congruence).
  destruct H as (-> & _). eauto.
Qed.

Lemma wrapper_at_exited (s : sys) :
  wrapper_at items ending s -> exited s ->
  pipe_sent s = stream items ending /\ pipe_closed s = true.
Proof.
  unfold wrapper_at, exited. intros [_ H] [h Hw]. rewrite Hw in H. exact H.
Qed.

Lemma wrapper_at_fetch_iter (s : sys) :
  wrapper_at items ending s -> wrapper_at items ending (fst (fetch_iter s)).
Proof.
  unfold wrapper_at.
  destruct (fetch_iter_worker_side s) as (E1 & E2 & E3 & E4).
  now rewrite E1, E2, E3, E4.
Qed.

Lemma caller_at_worker_step (s : sys) :
  caller_at items ending s -> caller_at items ending (worker_step gen s).
Proof.
  unfold caller_at.
  destruct (worker_step_view gen s)
    as [(E1 & E2 & _ & _ & E5 & E6 & E7 & _) _].
  now rewrite E1, E2, E5, E6, E7.
Qed.

Lemma caller_at_fetch_iter (s : sys) :
  wrapper_at items ending s -> caller_at items ending s ->
  caller_at items ending (fst (fetch_iter s)).
Proof.
  intros Hw [Hy Hcase].
  destruct (wrapper_at_prefix Hw) as (more & Hmore).
  unfold pipe_sent in Hmore. unfold caller_at.
  destruct (fetch_iterP s)
    as [Hb Hc | Hb Hc | d rest Hb Hd | d rest Hb Hd | d rest Hb Hd
        | d rest Hb Hd]; simpl.
  - auto.
  - split; [assumption |].
    destruct (wrapper_at_closed Hw Hc) as [Hs _].
    unfold pipe_sent in Hs. rewrite Hb, app_nil_r in Hs.
    destruct Hcase as [(E1 & E2 & E3 & _) | (t & E1 & E2 & E3 & E4)].
    + left. auto.
    + right. exists t. repeat split; try assumption.
      destruct (classify t); tauto.
  - split; [assumption |]. rewrite Hb in Hmore.
    destruct Hcase as [(E1 & E2 & E3 & _) | (t & E1 & E2 & E3 & E4)].
    + right. exists d.
      assert (~ is_item d) as Hnot
          by (rewrite <- classify_item; congruence).
      rewrite E1 in Hmore. unfold stream in Hmore.
      rewrite <- app_assoc in Hmore. simpl in Hmore. symmetry in Hmore.
      destruct (@split_at_terminal _ _ _ _ _ Hy Hitems Hnot
                  (terminal_of_shape ending) Hmore) as (Ha & _ & Ht).
      rewrite Hd, E1, Ha. repeat split; auto.
    + exfalso. unfold stream in Hmore. rewrite E1, <- E2 in Hmore.
      exact (@app_self_longer _ _ _ _ _ Hmore).
  - split; [assumption |]. rewrite Hb in Hmore.
    destruct Hcase as [(E1 & E2 & E3 & _) | (t & E1 & E2 & E3 & E4)].
    + right. exists d.
      assert (~ is_item d) as Hnot
          by (rewrite <- classify_item; congruence).
      rewrite E1 in Hmore. unfold stream in Hmore.
      rewrite <- app_assoc in Hmore. simpl in Hmore. symmetry in Hmore.
      destruct (@split_at_terminal _ _ _ _ _ Hy Hitems Hnot
                  (terminal_of_shape ending) Hmore) as (Ha & _ & Ht).
      rewrite Hd, E1, Ha. repeat split; auto.
    + exfalso. unfold stream in Hmore. rewrite E1, <- E2 in Hmore.
      exact (@app_self_longer _ _ _ _ _ Hmore).
  - split; [assumption |]. rewrite Hb in Hmore.
    destruct Hcase as [(E1 & E2 & E3 & _) | (t & E1 & E2 & E3 & E4)].
    + right. exists d.
      assert (~ is_item d) as Hnot
          by (rewrite <- classify_item; congruence).
      rewrite E1 in Hmore. unfold stream in Hmore.
      rewrite <- app_assoc in Hmore. simpl in Hmore. symmetry in Hmore.
      destruct (@split_at_terminal _ _ _ _ _ Hy Hitems Hnot
                  (terminal_of_shape ending) Hmore) as (Ha & _ & Ht).
      rewrite Hd, E1, E2, Ha. repeat split; auto.
    + exfalso. unfold stream in Hmore. rewrite E1, <- E2 in Hmore.
      exact (@app_self_longer _ _ _ _ _ Hmore).
  - apply classify_item in Hd. rewrite Hb in Hmore.
    split; [apply Forall_app; split; [assumption | now constructor] |].
    destruct Hcase as [(E1 & E2 & E3 & E4) | (t & E1 & E2 & E3 & E4)].
    + left. rewrite E1. repeat split; try assumption.
      intros Hk. exfalso. rewrite (E4 Hk) in Hmore.
      exact (@app_self_longer _ _ _ _ _ Hmore).
    + exfalso. unfold stream in Hmore. rewrite E1, <- E2 in Hmore.
      exact (@app_self_longer _ _ _ _ _ Hmore).
Qed.

Lemma fetch_inv_init : fetch_inv items ending init.
Proof.
  unfold fetch_inv, wrapper_at, caller_at, pipe_sent. simpl. split.
  - repeat split. lia.
  - split; [constructor |]. left. repeat split. discriminate.
Qed.

Lemma fetch_inv_ops (ops : list op) (s : sys) :
  Forall fetch_op ops ->
  fetch_inv items ending s -> fetch_inv items ending (run gen ops s).
Proof.
  apply (lift_fetch_ops gen (fetch_inv items ending)).
  - intros s' [Hw Hc]. split;
      [now apply wrapper_at_worker_step | now apply caller_at_worker_step].
  - intros s' [Hw Hc]. split;
      [now apply wrapper_at_fetch_iter | now apply caller_at_fetch_iter].
  - intros n s' H. exact H.
Qed.

Lemma run_fetch_inv (ops : list op) :
  Forall fetch_op ops -> fetch_inv items ending (run gen ops init).
Proof.
  intros Hops. apply fetch_inv_ops; [assumption | apply fetch_inv_init].
Qed.

Lemma wrapper_at_in_range (s : sys) :
  wrapper_at items ending s -> in_range items s.
Proof.
  unfold wrapper_at, in_range. intros [_ H].
  destruct (worker s) as [i | d i | d i | e | | p | h]; try exact I.
  - tauto.
  - destruct H as ((j & -> & Hn & _) & _).
    assert (j < length items) by (apply nth_error_Some; congruence). lia.
  - destruct H as ((j & -> & Hn & _) & _).
    assert (j < length items) by (apply nth_error_Some; congruence). lia.
Qed.

(** The items yielded so far are the first items of the generator. *)
Lemma yielded_prefix (s : sys) :
  fetch_inv items ending s -> exists rest, items = yielded s ++ rest.
Proof.
  intros [Hw [Hy Hcase]].
  destruct Hcase as [(E1 & _) | (t & _ & _ & E3 & _)].
  - destruct (wrapper_at_prefix Hw) as (more & Hmore).
    unfold pipe_sent, stream in Hmore. rewrite E1, <- app_assoc in Hmore.
    symmetry in Hmore.
    destruct (@items_prefix _ _ _ _ Hy (terminal_of_shape ending) Hmore)
      as (rest & Hrest & _).
    now exists rest.
  - exists []. now rewrite E3, app_nil_r.
Qed.

(** Once the whole stream is received, its terminal message has been
    acted upon. *)
Lemma received_all (s : sys) (t : pyval) :
  fetch_inv items ending s ->
  terminal_of ending = [t] -> ~ is_item t ->
  pipe_recvd s = stream items ending ->
  yielded s = items /\
  match classify t with
  | KCompleted => completed s = true /\ raised s = []
  | KCancelled => canceled s = true /\ completed s = false /\ raised s = []
  | KFailed => raised s = [t] /\ completed s = false
  | KItem => False
  end.
Proof.
  intros [_ [Hy Hcase]] Ht Hnot Hall.
  destruct Hcase as [(E1 & _) | (t' & E1 & _ & E3 & E4)].
  - exfalso. apply Hnot. rewrite <- E1, Hall in Hy. unfold stream in Hy.
    rewrite Ht in Hy. apply Forall_app in Hy. destruct Hy as [_ Hy].
    now inversion Hy.
  - rewrite Ht in E1. injection E1 as <-. auto.
Qed.

(** Before the terminal message is received nothing has been raised and
    [completed] is false. *)
Lemma not_received_yet (s : sys) (t : pyval) :
  fetch_inv items ending s ->
  terminal_of ending = [t] -> ~ is_item t ->
  ~ In t (pipe_recvd s) ->
  raised s = [] /\ completed s = false /\ canceled s = false.
Proof.
  intros [_ [Hy Hcase]] Ht Hnot Hin.
  destruct Hcase as [(E1 & E2 & E3 & E4) | (t' & E1 & E2 & _)].
  - repeat split; try assumption.
    destruct (canceled s); [| reflexivity].
    exfalso. apply Hin. rewrite E4 by reflexivity. unfold stream.
    rewrite Ht. apply in_or_app. right. now left.
  - exfalso. apply Hin. rewrite Ht in E1. injection E1 as <-.
    rewrite E2. apply in_or_app. right. now left.
Qed.

Lemma received_terminal (s : sys) (t : pyval) :
  fetch_inv items ending s ->
  terminal_of ending = [t] -> ~ is_item t ->
  In t (pipe_recvd s) -> pipe_recvd s = stream items ending.
Proof.
  intros [_ [Hy Hcase]] Ht Hnot Hin.
  destruct Hcase as [(E1 & _) | (t' & E1 & E2 & _)].
  - exfalso. apply Hnot. rewrite E1 in Hin.
    rewrite Forall_forall in Hy. now apply Hy.
  - unfold stream. now rewrite E1, E2.
Qed.

(** After the wrapper has left, one [for] loop over [fetch()] receives the
    rest of the stream. *)
Lemma drained_after_exit (sched : list nat) (s : sys) :
  fetch_inv items ending s -> exited s ->
  pipe_recvd (fst (fetch_all gen sched s)) = stream items ending.
Proof.
  intros Hinv Hex. pose proof Hinv as [Hw [Hy Hcase]].
  destruct (wrapper_at_exited Hw Hex) as [Hsent Hclosed].
  unfold pipe_sent in Hsent.
  destruct (completed s || canceled s) eqn:Hterm.
  - rewrite fetch_all_terminal by assumption. simpl.
    destruct Hcase as [(_ & _ & E3 & E4) | (t & E1 & E2 & _)].
    + rewrite E3 in Hterm. simpl in Hterm. auto.
    + unfold stream. now rewrite E1.
  - apply orb_false_elim in Hterm. destruct Hterm as [Hc Hk].
    destruct Hcase as [(E1 & _) | (t & E1 & E2 & _)].
    + unfold stream in Hsent. rewrite E1 in Hsent.
      destruct (@items_prefix _ _ _ _ Hy (terminal_of_shape ending) Hsent)
        as (rest & Hrest & Hbuf).
      rewrite (@fetch_all_drains gen sched s rest (terminal_of ending)
                 Hc Hk Hex Hclosed Hbuf).
      * rewrite E1. unfold stream. now rewrite Hrest, <- app_assoc.
      * rewrite Hrest in Hitems. apply Forall_app in Hitems. tauto.
      * apply terminal_of_shape.
    + unfold stream in *. rewrite E1, <- E2 in Hsent.
      rewrite <- (app_nil_r (pipe_recvd s)) in Hsent at 2.
      apply app_inv_head in Hsent.
      rewrite (@fetch_all_drains gen sched s [] [] Hc Hk Hex Hclosed); auto.
      now rewrite app_nil_r, E1.
Qed.

(** The same from any state of the run: let the worker finish, then poll
    once more. *)
Lemma drained_eventually (ops : list op) (n : nat) (sched : list nat) :
  Forall fetch_op ops -> 3 * length items + 3 <= n ->
  let s' := run gen (ops ++ [OWork n; OFetchAll sched]) init in
  fetch_inv items ending s' /\ pipe_recvd s' = stream items ending.
Proof.
  intros Hops Hn s'. split.
  - apply run_fetch_inv. apply Forall_app. split; [assumption |].
    repeat constructor.
  - subst s'. rewrite run_app. simpl.
    apply drained_after_exit.
    + apply (fetch_inv_ops (ops := [OWork n])); [repeat constructor |].
      now apply run_fetch_inv.
    + pose proof (run_fetch_inv Hops) as [Hw _].
      apply (work_exits Hprod); [now apply wrapper_at_in_range |].
      pose proof (steps_left_init _ _ (wrapper_at_in_range Hw)). lia.
Qed.

End Finite.

(** ** What the caller observes, for any generator *)

Section Observed.

Variable gen : generator.

Lemma completed_stays (ops : list op) (s : sys) :
  completed s = true -> completed (run gen ops s) = true.
Proof.
  apply (lift_ops gen (fun s' => completed s' = true)).
  - intros s' H. destruct (worker_step_view gen s') as [(E & _) _].
    congruence.
  - intros s' H. iter_cases s'; auto.
  - intros n s' H. exact H.
  - intros s' H. exact H.
  - intros s' H. exact H.
  - intros s' H _. exact H.
  - intros s' H. destruct (kill_view s') as (E & _). congruence.
Qed.

Lemma canceled_stays (ops : list op) (s : sys) :
  canceled s = true -> canceled (run gen ops s) = true.
Proof.
  apply (lift_ops gen (fun s' => canceled s' = true)).
  - intros s' H. destruct (worker_step_view gen s') as [(_ & E & _) _].
    congruence.
  - intros s' H. iter_cases s'; auto.
  - intros n s' H. exact H.
  - intros s' H. exact H.
  - intros s' H. exact H.
  - intros s' H _. exact H.
  - intros s' H. destruct (kill_view s') as (_ & E & _). congruence.
Qed.

Lemma yielded_are_items (ops : list op) :
  Forall is_item (yielded (run gen ops init)).
Proof.
  apply (lift_ops gen (fun s => Forall is_item (yielded s))).
  - intros s H.
    destruct (worker_step_view gen s) as [(_ & _ & _ & _ & _ & E & _) _].
    now rewrite E.
  - intros s H. iter_cases s; auto.
    apply Forall_app. split; [assumption |]. constructor; [| constructor].
    now apply classify_item.
  - intros n s H. exact H.
  - intros s H. exact H.
  - intros s H. exact H.
  - intros s H _. exact H.
  - intros s H. destruct (kill_view s) as (_ & _ & _ & _ & _ & E & _).
    now rewrite E.
  - constructor.
Qed.

(** An operation of [fetch] raises exactly what it appends to the log. *)
Lemma fetch_loop_raise_log (sched : list nat) (s : sys) :
  raised (fst (fetch_loop gen sched s)) =
  raised s ++ raised_by (snd (fetch_loop gen sched s)).
Proof.
  revert s. induction sched as [| k ks IH]; intros s; simpl.
  - now rewrite app_nil_r.
  - destruct (work_view gen k s) as [(_ & _ & _ & _ & _ & _ & E & _) _].
    rewrite <- E.
    iter_cases (work gen k s); rewrite ?app_nil_r; try reflexivity.
    now rewrite IH.
Qed.

Lemma fetch_raise_log (sched : list nat) (s : sys) :
  raised (fst (fetch gen sched s)) =
  raised s ++ raised_by (snd (fetch gen sched s)).
Proof.
  unfold fetch. destruct sched as [| k ks]; simpl;
    [now rewrite app_nil_r |].
  destruct (completed s || canceled s); simpl; [now rewrite app_nil_r |].
  apply (fetch_loop_raise_log (k :: ks)).
Qed.

Lemma fetch_op_raise_log (o : op) (s : sys) :
  fetch_op o ->
  raised (fst (exec gen o s)) = raised s ++ raised_by (snd (exec gen o s)).
Proof.
  destruct o; simpl; try contradiction; intros _; rewrite ?app_nil_r.
  - now destruct (work_view gen k s) as [(_ & _ & _ & _ & _ & _ & E & _) _].
  - apply fetch_raise_log.
  - apply fetch_raise_log.
  - unfold fetch_first. destruct (completed s || canceled s); simpl;
      [now rewrite app_nil_r |].
    iter_cases s; now rewrite ?app_nil_r.
  - unfold fetch_resume. destruct (suspended s); simpl;
      [now rewrite app_nil_r |].
    iter_cases s; now rewrite ?app_nil_r.
  - reflexivity.
Qed.

End Observed.

(** ** The [isinstance] chain of [fetch] *)

Lemma classify_stop (d : pyval) :
  isinstance d StopIteration = true -> classify d = KCompleted.
Proof. unfold classify. now intros ->. Qed.

Lemma classify_early (d : pyval) :
  isinstance d StopIteration = false ->
  isinstance d EarlyCancellationError = true -> classify d = KCancelled.
Proof. unfold classify. now intros -> ->. Qed.

Lemma classify_other (d : pyval) :
  isinstance d Exception = true ->
  isinstance d StopIteration = false ->
  isinstance d EarlyCancellationError = false ->
  classify d = KFailed.
Proof. unfold classify. now intros -> -> ->. Qed.

Lemma classify_failed_exception (e : pyexc) :
  classify (PyExc e) = KFailed ->
  terminal_of (Raises e) = [PyExc e] /\ ~ is_item (PyExc e).
Proof.
  intros H.
  assert (isinstance (PyExc e) Exception = true) as He
      by (apply classify_exception; congruence).
  simpl in *. rewrite He. split; [reflexivity |].
  unfold is_item. simpl. congruence.
Qed.

Lemma classify_sentinel_exception (e : pyexc) :
  classify (PyExc e) <> KItem ->
  terminal_of (Raises e) = [PyExc e] /\ ~ is_item (PyExc e).
Proof.
  intros H. apply classify_exception in H.
  simpl in *. rewrite H. split; [reflexivity |].
  unfold is_item. simpl. congruence.
Qed.

(** An exception that [fetch] reads as a failure or as a cancellation is no
    [StopIteration] instance, so it reaches the [try] statement from any
    request. *)
Lemma not_completed_reaches_try (items : list pyval) (e : pyexc) :
  classify (PyExc e) <> KCompleted -> reaches_try items (Raises e).
Proof.
  unfold classify, reaches_try. simpl. intros H Hs. now rewrite Hs in H.
Qed.

Lemma failed_reaches_try (items : list pyval) (e : pyexc) :
  classify (PyExc e) = KFailed -> reaches_try items (Raises e).
Proof.
  intros H. apply not_completed_reaches_try. congruence.
Qed.

(** ** End to end: a generator that stops, a caller that only polls *)

(** C1.  The generator yields [items], none of them an [Exception]
    instance, and returns; the caller only calls [fetch] (whole loops, or
    generator objects resumed by hand) while the worker runs at any speed.
    Then at every moment the items yielded so far are the first items of
    [items], in order, and nothing was raised; [completed] is true only
    when all of [items] has been yielded, and from then on it stays true
    and nothing more is yielded; and once the worker has had the time to
    finish, the next loop over [fetch()] makes [completed] true. *)
Theorem C1_fetch_yields_items_in_order_then_completes
  (gen : generator) (items : list pyval) :
  produces gen items Exhausted ->
  Forall is_item items ->
  forall ops, Forall fetch_op ops ->
  let s := run gen ops init in
  (exists rest, items = yielded s ++ rest) /\
  (completed s = true -> yielded s = items) /\
  raised s = [] /\
  (forall ops', Forall fetch_op ops' -> completed s = true ->
                completed (run gen ops' s) = true /\
                yielded (run gen ops' s) = items) /\
  (forall n sched, 3 * length items + 3 <= n ->
                   let s' := run gen [OWork n; OFetchAll sched] s in
                   completed s' = true /\ yielded s' = items).
Proof.
  intros Hprod Hitems.
  assert (reaches_try items Exhausted) as Hend by exact I.
  assert (forall ops0, Forall fetch_op ops0 ->
            completed (run gen ops0 init) = true ->
            yielded (run gen ops0 init) = items) as Hdone.
  { intros ops0 Hops0 Hc.
    destruct (run_fetch_inv Hprod Hend Hitems Hops0)
      as [_ [_ [(_ & _ & E & _) | (t & _ & _ & E & _)]]];
      [congruence | assumption]. }
  intros ops Hops s.
  pose proof (run_fetch_inv Hprod Hend Hitems Hops) as Hinv. fold s in Hinv.
  split; [exact (yielded_prefix Hinv) |].
  split; [now apply Hdone |].
  split.
  { destruct Hinv as [_ [_ [(_ & E & _) | (t & E1 & _ & _ & E4)]]];
      [assumption |].
    simpl in E1. injection E1 as <-. simpl in E4. tauto. }
  split.
  - intros ops' Hops' Hc.
    pose proof (completed_stays gen ops' s Hc) as Hc'.
    split; [assumption |].
    subst s. rewrite <- run_app in *.
    apply Hdone; [| assumption].
    apply Forall_app. now split.
  - intros n sched Hn s'.
    destruct (drained_eventually Hprod Hend Hitems sched Hops Hn)
      as [Hinv' Hall].
    rewrite run_app in Hinv', Hall. fold s in Hinv', Hall.
    fold s' in Hinv', Hall.
    assert (~ is_item (PyExc stop_iteration)) as Hnot
        by (unfold is_item; simpl; discriminate).
    destruct (received_all Hinv' (t := PyExc stop_iteration)
                eq_refl Hnot Hall) as [Hy Hk].
    simpl in Hk. tauto.
Qed.

(** The two phases of a run over a generator that fails with [e]: before
    and after the caller received [e]. *)
Lemma failing_run_cases
  (gen : generator) (items : list pyval) (e : pyexc) (ops : list op) :
  produces gen items (Raises e) ->
  Forall is_item items ->
  classify (PyExc e) = KFailed ->
  Forall fetch_op ops ->
  let s := run gen ops init in
  (raised s = [] /\ completed s = false /\ canceled s = false /\
   ~ In (PyExc e) (pipe_recvd s))
  \/
  (raised s = [PyExc e] /\ completed s = false /\ yielded s = items /\
   pipe_recvd s = stream items (Raises e) /\ In (PyExc e) (pipe_recvd s)).
Proof.
  intros Hprod Hitems Hfail Hops s.
  destruct (classify_failed_exception e Hfail) as [Hterm Hnot].
  pose proof (failed_reaches_try items e Hfail) as Hend.
  pose proof (run_fetch_inv Hprod Hend Hitems Hops) as Hinv. fold s in Hinv.
  destruct (in_dec pyval_eq_dec (PyExc e) (pipe_recvd s)) as [Hin | Hin].
  - right.
    pose proof (received_terminal Hinv Hterm Hnot Hin) as Hall.
    destruct (received_all Hinv Hterm Hnot Hall) as [Hy Hk].
    rewrite Hfail in Hk. tauto.
  - left. destruct (not_received_yet Hinv Hterm Hnot Hin) as (? & ? & ?).
    auto.
Qed.

Lemma raised_stays (gen : generator) (ops : list op) (s : sys) :
  raised s <> [] -> raised (run gen ops s) <> [].
Proof.
  apply (lift_ops gen (fun s' => raised s' <> [])).
  - intros s' H.
    destruct (worker_step_view gen s')
      as [(_ & _ & _ & _ & _ & _ & E & _) _].
    now rewrite E.
  - intros s' H. iter_cases s'; auto.
    intros E. now apply app_eq_nil in E.
  - intros n s' H. exact H.
  - intros s' H. exact H.
  - intros s' H. exact H.
  - intros s' H _. exact H.
  - intros s' H. destruct (kill_view s')
      as (_ & _ & _ & _ & _ & _ & E & _).
    now rewrite E.
Qed.

(** C2, as the code has it.  The generator yields [items], none of them an
    [Exception] instance, and then raises [e], an [Exception] instance
    that is neither a [StopIteration] nor an [EarlyCancellationError]; the
    caller only calls [fetch].  Then [e] is raised out of [fetch] at most
    once, and exactly by the operation that receives it from the pipe; and
    it is raised: once the worker has had the time to finish, the next loop
    over [fetch()] has raised it if none did before. *)
Theorem C2_failure_raised_once_when_drained
  (gen : generator) (items : list pyval) (e : pyexc) :
  produces gen items (Raises e) ->
  Forall is_item items ->
  classify (PyExc e) = KFailed ->
  forall ops, Forall fetch_op ops ->
  let s := run gen ops init in
  (raised s = [] \/ raised s = [PyExc e]) /\
  (raised s = [PyExc e] <-> In (PyExc e) (pipe_recvd s)) /\
  (forall o x, fetch_op o -> snd (exec gen o s) = Raised x ->
               x = PyExc e /\ raised s = [] /\
               ~ In (PyExc e) (pipe_recvd s) /\
               In (PyExc e) (pipe_recvd (fst (exec gen o s)))) /\
  (forall n sched, 3 * length items + 3 <= n ->
                   raised (run gen [OWork n; OFetchAll sched] s)
                   = [PyExc e]).
Proof.
  intros Hprod Hitems Hfail ops Hops s.
  destruct (classify_failed_exception e Hfail) as [Hterm Hnot].
  pose proof (failed_reaches_try items e Hfail) as Hend.
  pose proof (failing_run_cases Hprod Hitems Hfail Hops) as Hs.
  fold s in Hs. cbv zeta in Hs.
  split; [tauto |].
  split.
  { split.
    - intros Hr. destruct Hs as [(E & _ & _ & _) | (_ & _ & _ & _ & Hin)];
        [congruence | assumption].
    - intros Hin. destruct Hs as [(_ & _ & _ & Hn) | (E & _)];
        [contradiction | assumption]. }
  split.
  - intros o x Ho Hx.
    pose proof (fetch_op_raise_log gen o s Ho) as Hlog.
    rewrite Hx in Hlog. simpl in Hlog.
    assert (Forall fetch_op (ops ++ [o])) as Hops'
        by (apply Forall_app; split; [assumption | now repeat constructor]).
    pose proof (failing_run_cases Hprod Hitems Hfail Hops') as Hs'.
    cbv zeta in Hs'. rewrite run_app in Hs'. fold s in Hs'. simpl in Hs'.
    destruct Hs' as [(E' & _) | (E' & _ & _ & _ & Hin')].
    + rewrite Hlog in E'. destruct (raised s); discriminate E'.
    + rewrite Hlog in E'.
      destruct Hs as [(E & _ & _ & Hn) | (E & _)].
      * rewrite E in E'. simpl in E'. injection E' as ->. auto.
      * rewrite E in E'. discriminate E'.
  - intros n sched Hn.
    destruct (drained_eventually Hprod Hend Hitems sched Hops Hn)
      as [Hinv' Hall].
    rewrite run_app in Hinv', Hall. fold s in Hinv', Hall.
    destruct (received_all Hinv' Hterm Hnot Hall) as [_ Hk].
    rewrite Hfail in Hk. tauto.
Qed.

(** C8, as the code has it.  Same generator and caller as for C2.  The
    items yielded are the first items of [items]; an operation that raises
    raises [e] and has by then yielded all of [items]; when the worker has
    had the time to finish, a loop over [fetch()] that starts before any
    raise ends by raising [e].  After the raise nothing more is yielded or
    raised and [completed] stays false; but the proxy is not in a terminal
    state yet: the first loop over [fetch()] that finds the worker gone
    sets [canceled], and only from then on is [fetch] without effect. *)
Theorem C8_items_then_error_then_silence
  (gen : generator) (items : list pyval) (e : pyexc) :
  produces gen items (Raises e) ->
  Forall is_item items ->
  classify (PyExc e) = KFailed ->
  forall ops, Forall fetch_op ops ->
  let s := run gen ops init in
  (exists rest, items = yielded s ++ rest) /\
  (forall o x, fetch_op o -> snd (exec gen o s) = Raised x ->
               x = PyExc e /\ yielded (fst (exec gen o s)) = items) /\
  (forall n sched, 3 * length items + 3 <= n -> raised s = [] ->
                   snd (fetch_all gen sched (work gen n s))
                   = Raised (PyExc e) /\
                   yielded (fst (fetch_all gen sched (work gen n s)))
                   = items) /\
  (raised s <> [] ->
   yielded s = items /\ completed s = false /\
   (forall ops', Forall fetch_op ops' ->
                 yielded (run gen ops' s) = items /\
                 raised (run gen ops' s) = raised s /\
                 completed (run gen ops' s) = false) /\
   (forall o x, fetch_op o -> snd (exec gen o s) <> Raised x) /\
   (canceled s = true ->
    forall sched, fetch_all gen sched s = (s, Returned)) /\
   (canceled s = false -> exited s ->
    forall sched, canceled (fst (fetch_all gen sched s)) = true)).
Proof.
  intros Hprod Hitems Hfail ops Hops s.
  destruct (classify_failed_exception e Hfail) as [Hterm Hnot].
  pose proof (failed_reaches_try items e Hfail) as Hend.
  pose proof (run_fetch_inv Hprod Hend Hitems Hops) as Hinv. fold s in Hinv.
  pose proof (failing_run_cases Hprod Hitems Hfail Hops) as Hs.
  fold s in Hs. cbv zeta in Hs.
  assert (forall o, fetch_op o -> Forall fetch_op (ops ++ [o])) as Hsnoc
      by (intros o Ho; apply Forall_app; split;
          [assumption | now repeat constructor]).
  split; [exact (yielded_prefix Hinv) |].
  split.
  { intros o x Ho Hx.
    pose proof (fetch_op_raise_log gen o s Ho) as Hlog.
    rewrite Hx in Hlog. simpl in Hlog.
    pose proof (failing_run_cases Hprod Hitems Hfail (Hsnoc o Ho)) as Hs'.
    cbv zeta in Hs'. rewrite run_app in Hs'. fold s in Hs'. simpl in Hs'.
    destruct Hs' as [(E' & _) | (E' & _ & Hy' & _)].
    - rewrite Hlog in E'. destruct (raised s); discriminate E'.
    - split; [| assumption]. rewrite Hlog in E'.
      destruct Hs as [(E & _) | (E & _)]; rewrite E in E'.
      + simpl in E'. now injection E' as ->.
      + discriminate E'. }
  split.
  { intros n sched Hn Hr.
    destruct (drained_eventually Hprod Hend Hitems sched Hops Hn)
      as [Hinv' Hall].
    rewrite run_app in Hinv', Hall. fold s in Hinv', Hall.
    simpl in Hinv', Hall.
    destruct (received_all Hinv' Hterm Hnot Hall) as [Hy Hk].
    rewrite Hfail in Hk. destruct Hk as [Hk _].
    split; [| assumption].
    pose proof (fetch_raise_log gen (exhaust sched (work gen n s))
                  (work gen n s)) as Hlog.
    fold (fetch_all gen sched (work gen n s)) in Hlog.
    destruct (work_view gen n s) as [(_ & _ & _ & _ & _ & _ & E & _) _].
    rewrite Hk, E, Hr in Hlog. simpl in Hlog.
    destruct (snd (fetch_all gen sched (work gen n s)));
      simpl in Hlog; try discriminate Hlog.
    now injection Hlog as <-. }
  intros Hr.
  destruct Hs as [(E & _) | (E & Hc & Hy & Hall & Hin)]; [contradiction |].
  split; [assumption |]. split; [assumption |].
  split.
  { intros ops' Hops'.
    assert (Forall fetch_op (ops ++ ops')) as Hboth
        by (apply Forall_app; now split).
    pose proof (failing_run_cases Hprod Hitems Hfail Hboth) as Hs'.
    cbv zeta in Hs'. rewrite run_app in Hs'. fold s in Hs'.
    pose proof (raised_stays gen ops' s Hr) as Hr'.
    destruct Hs' as [(E' & _) | (E' & Hc' & Hy' & _)]; [contradiction |].
    rewrite E, E'. auto. }
  split.
  { intros o x Ho Hx.
    pose proof (fetch_op_raise_log gen o s Ho) as Hlog.
    rewrite Hx, E in Hlog. simpl in Hlog.
    pose proof (failing_run_cases Hprod Hitems Hfail (Hsnoc o Ho)) as Hs'.
    cbv zeta in Hs'. rewrite run_app in Hs'. fold s in Hs'. simpl in Hs'.
    destruct Hs' as [(E' & _) | (E' & _)]; rewrite Hlog in E';
      discriminate E'. }
  split.
  { intros Hk sched. apply fetch_all_terminal. rewrite Hk.
    apply orb_true_r. }
  intros Hk Hex sched.
  destruct Hinv as [Hw _].
  destruct (wrapper_at_exited Hw Hex) as [Hsent Hclosed].
  unfold pipe_sent in Hsent. rewrite Hall in Hsent.
  rewrite <- (app_nil_r (stream items (Raises e))) in Hsent at 2.
  apply app_inv_head in Hsent.
  apply (fetch_all_closed gen sched Hc Hk Hex Hclosed).
  rewrite Hsent. constructor.
Qed.

(** C10, as the code has it.  [fetch] reads a received [Exception]
    instance by its class, in the order of lines 80-87, and never yields
    it: a [StopIteration] instance sets [completed]; an
    [EarlyCancellationError] instance that is no [StopIteration] instance
    sets [canceled]; both end the call; any other one is raised.  So
    everything a run ever yields is an item.  As to what the generator
    raises, for a caller that only polls:
    - an exception that reaches the [try] statement and that [fetch] reads
      as a sentinel (an [EarlyCancellationError] raised at any request, a
      [StopIteration] raised by the call of the generator) is never raised
      to the caller, and the run ends as canceled, respectively completed;
    - a [StopIteration] that leaves a later request ends the iteration:
      the wrapper sends its own [StopIteration()] and the run ends as
      completed;
    - a [StopIteration] raised in the body of a generator function arrives
      as a [RuntimeError], which [fetch] raises to the caller, and
      [completed] stays false. *)
Theorem C10_exception_instances_are_sentinels (gen : generator) :
  (forall s d rest,
      pipe_buf s = d :: rest -> isinstance d Exception = true ->
      let s' := fst (fetch_iter s) in
      yielded s' = yielded s /\
      (forall v, snd (fetch_iter s) <> IterYield v) /\
      (isinstance d StopIteration = true ->
       completed s' = true /\ canceled s' = canceled s /\
       snd (fetch_iter s) = IterReturn) /\
      (isinstance d StopIteration = false ->
       isinstance d EarlyCancellationError = true ->
       canceled s' = true /\ completed s' = completed s /\
       snd (fetch_iter s) = IterReturn) /\
      (isinstance d StopIteration = false ->
       isinstance d EarlyCancellationError = false ->
       snd (fetch_iter s) = IterRaise d)) /\
  (forall ops, Forall is_item (yielded (run gen ops init))) /\
  (forall items e,
      produces gen items (Raises e) -> Forall is_item items ->
      reaches_try items (Raises e) ->
      classify (PyExc e) = KCompleted \/ classify (PyExc e) = KCancelled ->
      forall ops, Forall fetch_op ops ->
      raised (run gen ops init) = [] /\
      forall n sched, 3 * length items + 3 <= n ->
        let s' := run gen [OWork n; OFetchAll sched] (run gen ops init) in
        yielded s' = items /\ raised s' = [] /\
        pipe_recvd s' = items ++ [PyExc e] /\
        (classify (PyExc e) = KCompleted -> completed s' = true) /\
        (classify (PyExc e) = KCancelled ->
         canceled s' = true /\ completed s' = false)) /\
  (forall items e,
      produces gen items (Raises e) -> Forall is_item items ->
      items <> [] -> issubclass (exc_class e) StopIteration = true ->
      forall ops, Forall fetch_op ops ->
      raised (run gen ops init) = [] /\
      forall n sched, 3 * length items + 3 <= n ->
        let s' := run gen [OWork n; OFetchAll sched] (run gen ops init) in
        yielded s' = items /\ raised s' = [] /\
        pipe_recvd s' = items ++ [PyExc stop_iteration] /\
        completed s' = true) /\
  (forall body items e,
      produces body items (Raises e) -> Forall is_item items ->
      issubclass (exc_class e) StopIteration = true ->
      forall ops, Forall fetch_op ops ->
      let gen_fn := generator_function body in
      completed (run gen_fn ops init) = false /\
      forall n sched, 3 * length items + 3 <= n ->
        let s' :=
          run gen_fn [OWork n; OFetchAll sched] (run gen_fn ops init) in
        yielded s' = items /\
        raised s' = [PyExc generator_raised_stop] /\
        completed s' = false).
Proof.
  split; [| split; [| split; [| split]]].
  - intros s d rest Hbuf Hexc s'. subst s'.
    assert (classify d <> KItem) as Hkind by now apply classify_exception.
    split; [| split; [| split; [| split]]].
    + destruct (fetch_iterP s)
        as [E ? | E ? | d' r' E Hd | d' r' E Hd | d' r' E Hd | d' r' E Hd];
        try reflexivity.
      rewrite Hbuf in E. injection E as <- <-. contradiction.
    + intros v.
      destruct (fetch_iterP s)
        as [E ? | E ? | d' r' E Hd | d' r' E Hd | d' r' E Hd | d' r' E Hd];
        simpl; try discriminate.
      rewrite Hbuf in E. injection E as <- <-. contradiction.
    + intros Hstop.
      now rewrite (fetch_iter_completed s Hbuf (classify_stop d Hstop)).
    + intros Hstop Hearly.
      now rewrite (fetch_iter_cancelled s Hbuf
                     (classify_early d Hstop Hearly)).
    + intros Hn1 Hn2.
      now rewrite (fetch_iter_failed s Hbuf (classify_other d Hexc Hn1 Hn2)).
  - apply yielded_are_items.
  - intros items e Hprod Hitems Hend Hkind ops Hops.
    assert (classify (PyExc e) <> KItem) as Hne
        by (destruct Hkind as [-> | ->]; discriminate).
    destruct (classify_sentinel_exception e Hne) as [Hterm Hnot].
    split.
    + destruct (run_fetch_inv Hprod Hend Hitems Hops)
        as [_ [_ [(_ & E & _) | (t & E1 & _ & _ & E4)]]]; [assumption |].
      rewrite Hterm in E1. injection E1 as <-.
      destruct Hkind as [Hk | Hk]; rewrite Hk in E4; tauto.
    + intros n sched Hn s'.
      destruct (drained_eventually Hprod Hend Hitems sched Hops Hn)
        as [Hinv' Hall].
      rewrite run_app in Hinv', Hall. fold s' in Hinv', Hall.
      destruct (received_all Hinv' Hterm Hnot Hall) as [Hy Hk].
      split; [assumption |].
      unfold stream in Hall. rewrite Hterm in Hall.
      destruct Hkind as [Hc | Hc]; rewrite Hc in Hk |- *;
        repeat split; try tauto; discriminate.
  - intros items e Hprod Hitems Hne Hstop ops Hops.
    pose proof (late_stop_is_exhaustion Hprod Hne Hstop) as Hprod'.
    assert (reaches_try items Exhausted) as Hend by exact I.
    assert (~ is_item (PyExc stop_iteration)) as Hnot
        by (unfold is_item; simpl; discriminate).
    split.
    + destruct (run_fetch_inv Hprod' Hend Hitems Hops)
        as [_ [_ [(_ & E & _) | (t & E1 & _ & _ & E4)]]].
      * now rewrite run_for_next in E.
      * simpl in E1. injection E1 as <-. simpl in E4.
        rewrite run_for_next in E4. tauto.
    + intros n sched Hn s'.
      destruct (drained_eventually Hprod' Hend Hitems sched Hops Hn)
        as [Hinv' Hall].
      rewrite run_for_next in Hinv', Hall.
      rewrite run_app in Hinv', Hall. fold s' in Hinv', Hall.
      destruct (received_all Hinv' (t := PyExc stop_iteration)
                  eq_refl Hnot Hall) as [Hy Hk].
      simpl in Hk. unfold stream in Hall. simpl in Hall. tauto.
  - intros body items e Hprod Hitems Hstop ops Hops gen_fn.
    pose proof (generator_function_stop Hprod Hstop) as Hprod'.
    fold gen_fn in Hprod'.
    assert (classify (PyExc generator_raised_stop) = KFailed) as Hfail
        by reflexivity.
    destruct (classify_failed_exception _ Hfail) as [Hterm Hnot].
    pose proof (failed_reaches_try items _ Hfail) as Hend.
    split.
    + destruct (failing_run_cases Hprod' Hitems Hfail Hops)
        as [(_ & E & _) | (_ & E & _)]; exact E.
    + intros n sched Hn s'.
      destruct (drained_eventually Hprod' Hend Hitems sched Hops Hn)
        as [Hinv' Hall].
      rewrite run_app in Hinv', Hall. fold s' in Hinv', Hall.
      destruct (received_all Hinv' Hterm Hnot Hall) as [Hy Hk].
      rewrite Hfail in Hk. tauto.
Qed.

(** ** Concrete runs *)

Lemma produces_list_gen (items : list pyval) (ending : gen_end) :
  produces (list_gen items ending) items ending.
Proof. intros i _. reflexivity. Qed.

Lemma list_gen_plain (items : list pyval) (ending : gen_end) :
  Forall is_item items -> plain_items (list_gen items ending).
Proof.
  intros H i v. unfold list_gen.
  destruct (nth_error items i) as [w |] eqn:Hn.
  - intros E. injection E as <-. rewrite Forall_forall in H.
    apply H. eapply nth_error_In. eassumption.
  - destruct ending; discriminate.
Qed.

(** The scenario of the module's [__main__] block on the generator
    [1, 2, 3]: a first poll yields [1, 2] and leaves [completed] false, a
    second one yields [3] and sets [completed]. *)
Lemma C1_witness :
  let s1 := run gen_123 [OWork 7; OFetchAll []] init in
  let s := run gen_123 poll_to_completion init in
  (yielded s1 = [PyInt 1; PyInt 2] /\ completed s1 = false) /\
  (exists rest, [PyInt 1; PyInt 2; PyInt 3] = yielded s ++ rest) /\
  (completed s = true -> yielded s = [PyInt 1; PyInt 2; PyInt 3]) /\
  raised s = [].
Proof.
  intros s1 s. split; [split; reflexivity |].
  assert (Forall fetch_op poll_to_completion) as Hops
      by (repeat constructor).
  assert (Forall is_item [PyInt 1; PyInt 2; PyInt 3]) as Hitems
      by (repeat constructor).
  destruct (C1_fetch_yields_items_in_order_then_completes
              (produces_list_gen _ _) Hitems Hops) as (H1 & H2 & H3 & _).
  exact (conj H1 (conj H2 H3)).
Defined.

(** A callable that raises [StopIteration], and a generator interrupted by
    [KeyboardInterrupt] after one item: the worker has finished and the
    caller has drained the pipe, nothing was raised and nothing is left to
    raise. *)
Lemma C2_counterexample :
  (let s := run gen_raises_stop finish_then_poll init in
   exited s /\ pipe_buf s = [] /\
   pipe_recvd s = [PyExc (mk_exc StopIteration "inner")] /\
   raised s = [] /\ completed s = true) /\
  (let s := run gen_interrupted finish_then_poll init in
   worker s = WExited (ExitUncaught (mk_exc KeyboardInterrupt "")) /\
   pipe_buf s = [] /\ pipe_recvd s = [PyInt 1] /\
   raised s = [] /\ canceled s = true).
Proof.
  split; cbv zeta; repeat split; try (vm_compute; reflexivity).
  exists ExitOk. vm_compute. reflexivity.
Qed.

Lemma C2_witness :
  let s := run gen_fails finish_then_poll init in
  raised s = [PyExc value_error] /\
  (raised s = [PyExc value_error] <-> In (PyExc value_error) (pipe_recvd s)).
Proof.
  intros s. split; [reflexivity |].
  assert (Forall fetch_op finish_then_poll) as Hops by (repeat constructor).
  assert (Forall is_item [PyInt 1]) as Hitems by (repeat constructor).
  destruct (C2_failure_raised_once_when_drained
              (produces_list_gen [PyInt 1] (Raises value_error))
              Hitems eq_refl Hops) as (_ & H & _).
  exact H.
Defined.

(** C3.  [for x in task.fetch(): task.cancel()] on the generator
    [1, 2, 3] whose worker has finished.  After the first item is yielded
    the loop body calls [cancel], whose own loop over [fetch()] drains the
    pipe and sets [completed].  In that state a fresh [fetch()] returns at
    once and changes nothing (the check of line 69); the suspended
    generator object, resumed by the [for] statement, is behind that check:
    it goes back to the [while] test, finds the closed pipe and sets
    [canceled].  The proxy ends with [completed] and [canceled] both
    true. *)
Theorem C3_resumed_fetch_sets_both_flags :
  let s := run gen_123 [OWork 20; OFirst; OCancel [] 0] init in
  let s' := fst (fetch_resume s) in
  (completed s = true /\ canceled s = false /\ suspended s = 1 /\
   pipe_buf s = [] /\ pipe_closed s = true) /\
  fetch_first s = (s, Returned) /\
  snd (fetch_resume s) = Returned /\
  completed s' = true /\ canceled s' = true /\
  s' = run gen_123 cancel_inside_loop init.
Proof.
  cbv zeta.
  repeat match goal with |- _ /\ _ => split end; vm_compute; reflexivity.
Qed.

Lemma X12_witness :
  let s := run gen_123 poll_to_completion init in
  completed s = true /\ completed s && canceled s = false /\
  fetch_all gen_123 [] s = (s, Returned).
Proof.
  intros s.
  assert (Forall sequential_op poll_to_completion) as Hops
      by (repeat constructor).
  destruct (X12_status_exclusive_in_sequential_use gen_123 Hops)
    as (H1 & H2).
  destruct (H2 eq_refl) as (_ & H3 & _).
  exact (conj eq_refl (conj H1 (H3 []))).
Defined.

(** The wrapper has left: over a generator interrupted by
    [KeyboardInterrupt] no [Exception] instance was sent at all; over a
    generator that yields an exception object two were sent. *)
Lemma C4_counterexample :
  (let s := run gen_interrupted [OWork 20] init in
   worker s = WExited (ExitUncaught (mk_exc KeyboardInterrupt "")) /\
   pipe_closed s = true /\
   pipe_sent s = [PyInt 1] /\
   filter (fun v => isinstance v Exception) (pipe_sent s) = []) /\
  (let s := run gen_yields_error [OWork 20] init in
   worker s = WExited ExitOk /\
   filter (fun v => isinstance v Exception) (pipe_sent s) =
   [PyExc (mk_exc ValueError "datum"); PyExc stop_iteration]).
Proof. repeat split; vm_compute; reflexivity. Qed.

Lemma C4_witness :
  let s := run gen_123 [OWork 20; OCancel [] 1] init in
  worker s = WExited ExitOk /\ pipe_closed s = true /\
  one_terminal_last (pipe_sent s).
Proof.
  intros s.
  assert (Forall unkilled_op [OWork 20; OCancel [] 1]) as Hops
      by (repeat constructor).
  assert (plain_items gen_123) as Hplain
      by (apply list_gen_plain; repeat constructor).
  destruct (C4_one_terminal_message_sent_last Hplain Hops)
    as (_ & _ & H & _).
  exact (conj eq_refl (conj eq_refl (H eq_refl))).
Defined.

Lemma C5_witness :
  let s := run gen_123 [OWork 20] init in
  let s' := fst (fetch_all gen_123 [] s) in
  pipe_buf s = [PyInt 1; PyInt 2; PyInt 3] ++ [PyExc stop_iteration] /\
  snd (fetch_all gen_123 [] s) = Returned /\
  (classify (PyExc stop_iteration) = KCompleted ->
   completed s' = true /\ canceled s' = false).
Proof.
  intros s s'. split; [reflexivity |].
  assert (Forall is_item [PyInt 1; PyInt 2; PyInt 3]) as Hitems
      by (repeat constructor).
  destruct (@C5_sentinel_ends_the_drain gen_123 [] s
              [PyInt 1; PyInt 2; PyInt 3] [] (PyExc stop_iteration)
              eq_refl eq_refl eq_refl Hitems (or_introl eq_refl))
    as (H1 & H2 & _).
  exact (conj H1 H2).
Defined.

Lemma C6_witness :
  let s := run gen_interrupted [OWork 20] init in
  let s' := fst (fetch_all gen_interrupted [] s) in
  pipe_buf s = [PyInt 1] /\
  snd (fetch_all gen_interrupted [] s) = Returned /\
  canceled s' = true /\ completed s' = false /\ raised s' = raised s.
Proof.
  intros s s'. split; [reflexivity |].
  assert (exited s) as Hex by (eexists; reflexivity).
  assert (Forall is_item (pipe_buf s)) as Hitems by (repeat constructor).
  destruct (@C6_closed_pipe_is_cancellation gen_interrupted [] s
              eq_refl eq_refl Hex eq_refl Hitems)
    as (H1 & H2 & H3 & H4 & _).
  exact (conj H1 (conj H2 (conj H3 H4))).
Defined.

(** The task has completed by polling; the first [cancel] then joins the
    worker and drops the handle. *)
Lemma C7_counterexample :
  let s := run gen_123 poll_to_completion init in
  let s' := fst (cancel gen_123 [] 1 s) in
  completed s = true /\
  process s = Some Process /\ joins s = 0 /\
  process s' = None /\ joins s' = 1 /\ s' <> s.
Proof.
  cbv zeta. repeat split; try (vm_compute; reflexivity).
  intros H. apply (f_equal joins) in H. vm_compute in H. discriminate H.
Qed.

Lemma C7_witness :
  let s := run gen_123 poll_to_completion init in
  let s' := fst (cancel gen_123 [] 1 s) in
  snd (cancel gen_123 [] 1 s) = Returned /\
  completed s' = completed s /\
  (forall sched' j', cancel gen_123 sched' j' s' = (s', Returned)).
Proof.
  intros s s'.
  destruct (proj2 (C7_cancel_after_terminal_state gen_123) [] 1 s eq_refl)
    as (H1 & H2 & _ & _ & _ & _ & _ & _ & _ & _ & H3).
  exact (conj H1 (conj H2 H3)).
Defined.

(** The generator fails after one item; the poll that raised the error
    left both status attributes false, and the next poll sets
    [canceled]. *)
Lemma C8_counterexample :
  let s := run gen_fails finish_then_poll init in
  let s' := fst (fetch_all gen_fails [] s) in
  yielded s = [PyInt 1] /\ raised s = [PyExc value_error] /\
  completed s = false /\ canceled s = false /\
  snd (fetch_all gen_fails [] s) = Returned /\
  canceled s' = true /\ s' <> s.
Proof.
  cbv zeta. repeat split; try (vm_compute; reflexivity).
  intros H. apply (f_equal canceled) in H. vm_compute in H. discriminate H.
Qed.

Lemma C8_witness :
  let s := run gen_fails [OWork 2] init in
  (exists rest, [PyInt 1] = yielded s ++ rest) /\
  snd (fetch_all gen_fails [] (work gen_fails 20 s))
  = Raised (PyExc value_error) /\
  yielded (fst (fetch_all gen_fails [] (work gen_fails 20 s))) = [PyInt 1].
Proof.
  intros s.
  assert (Forall fetch_op [OWork 2]) as Hops by (repeat constructor).
  assert (Forall is_item [PyInt 1]) as Hitems by (repeat constructor).
  destruct (C8_items_then_error_then_silence
              (produces_list_gen [PyInt 1] (Raises value_error))
              Hitems eq_refl Hops) as (H1 & _ & H2 & _).
  assert (3 * length [PyInt 1] + 3 <= 20) as Hn by (simpl; lia).
  exact (conj H1 (H2 20 [] Hn eq_refl)).
Defined.

Lemma C9_witness :
  let s := run gen_123 [OWork 2; OCancel [] 1] init in
  should_terminate_flag s = true /\
  should_terminate_flag (run gen_123 poll_to_completion s) = true.
Proof.
  intros s. split; [reflexivity |].
  exact (proj2 (proj2 (C9_cancellation_flag_monotonic gen_123))
           poll_to_completion s eq_refl).
Defined.

(** An instance of a class below both sentinel classes, raised by the
    call of the generator, is an [EarlyCancellationError] instance that
    sets [completed] and not [canceled]; and a [StopIteration] raised in
    the body of a generator function after one item is reported as a
    failure: [fetch] raises a [RuntimeError] and [completed] stays
    false. *)
Lemma C10_counterexample :
  (let gen := list_gen [] (Raises both_sentinels) in
   let s := run gen finish_then_poll init in
   isinstance (PyExc both_sentinels) EarlyCancellationError = true /\
   pipe_recvd s = [PyExc both_sentinels] /\
   completed s = true /\ canceled s = false) /\
  (let s := run gen_stop_in_body [OWork 20] init in
   exited s /\
   snd (fetch_all gen_stop_in_body [] s)
   = Raised (PyExc generator_raised_stop) /\
   yielded (fst (fetch_all gen_stop_in_body [] s)) = [PyInt 1] /\
   completed (fst (fetch_all gen_stop_in_body [] s)) = false /\
   canceled (fst (fetch_all gen_stop_in_body [] s)) = false).
Proof.
  split; cbv zeta;
    repeat match goal with |- _ /\ _ => split end;
    try (vm_compute; reflexivity).
  exists ExitOk. vm_compute. reflexivity.
Qed.

(** [StopIteration] raised by the call, by a later request, and in the
    body of a generator function. *)
Lemma C10_witness :
  (let s := run gen_raises_stop finish_then_poll init in
   raised s = [] /\ yielded s = [] /\ completed s = true /\
   pipe_recvd s = [PyExc (mk_exc StopIteration "inner")]) /\
  (let s := run iter_stops_late finish_then_poll init in
   raised s = [] /\ yielded s = [PyInt 1] /\ completed s = true /\
   pipe_recvd s = [PyInt 1; PyExc stop_iteration]) /\
  (let s := run gen_stop_in_body finish_then_poll init in
   raised s = [PyExc generator_raised_stop] /\ yielded s = [PyInt 1] /\
   completed s = false).
Proof.
  assert (Forall is_item [PyInt 1]) as Hitems by (repeat constructor).
  assert (3 * length [PyInt 1] + 3 <= 20) as Hn by (simpl; lia).
  split; [| split]; intros s.
  - assert (Forall is_item []) as Hnone by constructor.
    assert (3 * length (@nil pyval) + 3 <= 20) as Hn0 by (simpl; lia).
    destruct (C10_exception_instances_are_sentinels gen_raises_stop)
      as (_ & _ & H & _).
    destruct (H [] (mk_exc StopIteration "inner")
                (produces_list_gen _ _) Hnone (fun _ => eq_refl)
                (or_introl eq_refl) [] (Forall_nil _)) as (_ & H').
    destruct (H' 20 [] Hn0) as (H1 & H2 & H3 & H4 & _).
    exact (conj H2 (conj H1 (conj (H4 eq_refl) H3))).
  - destruct (C10_exception_instances_are_sentinels iter_stops_late)
      as (_ & _ & _ & H & _).
    destruct (H [PyInt 1] (mk_exc StopIteration "late")
                (produces_list_gen _ _) Hitems
                (fun E => nil_cons (eq_sym E)) eq_refl
                [] (Forall_nil _)) as (_ & H').
    destruct (H' 20 [] Hn) as (H1 & H2 & H3 & H4).
    exact (conj H2 (conj H1 (conj H4 H3))).
  - destruct (C10_exception_instances_are_sentinels gen_stop_in_body)
      as (_ & _ & _ & _ & H).
    destruct (H (list_gen [PyInt 1] (Raises (mk_exc StopIteration "")))
                [PyInt 1] (mk_exc StopIteration "")
                (produces_list_gen _ _) Hitems eq_refl
                [] (Forall_nil _)) as (_ & H').
    destruct (H' 20 [] Hn) as (H1 & H2 & H3).
    exact (conj H2 (conj H1 H3)).
Defined.

(** ** Cooperative cancellation *)

Section Cancelled.

Variable gen : generator.

Lemma worker_step_flag (s : sys) :
  should_terminate_flag (worker_step gen s) = should_terminate_flag s.
Proof. now destruct (worker_step_view gen s) as [(_ & _ & _ & E & _) _]. Qed.

Lemma cancelled_step (s : sys) :
  should_terminate_flag s = true ->
  steps_when_cancelled (worker_step gen s) <= steps_when_cancelled s - 1 /\
  length (pipe_buf (worker_step gen s))
  + sends_when_cancelled (worker_step gen s)
  <= length (pipe_buf s) + sends_when_cancelled s.
Proof.
  intros Hflag.
  unfold steps_when_cancelled, sends_when_cancelled, worker_step.
  destruct (worker s) as [i | d i | d i | e | | p | h] eqn:Hw.
  - destruct (for_next gen i) as [v | | e];
      [| | destruct (issubclass (exc_class e) Exception)]; simpl; lia.
  - rewrite Hflag. simpl. lia.
  - simpl. rewrite length_app. simpl. lia.
  - simpl. rewrite length_app. simpl. lia.
  - simpl. rewrite length_app. simpl. lia.
  - simpl. lia.
  - rewrite Hw. lia.
Qed.

Lemma cancelled_work (k : nat) (s : sys) :
  should_terminate_flag s = true ->
  steps_when_cancelled (work gen k s) <= steps_when_cancelled s - k /\
  length (pipe_buf (work gen k s)) + sends_when_cancelled (work gen k s)
  <= length (pipe_buf s) + sends_when_cancelled s.
Proof.
  revert s. induction k as [| k IH]; intros s Hflag; simpl.
  - lia.
  - destruct (cancelled_step s Hflag) as [Hstep Hsend].
    destruct (IH (worker_step gen s)) as [H1 H2].
    + now rewrite worker_step_flag.
    + lia.
Qed.

Lemma cancelled_worker_exits (k : nat) (s : sys) :
  should_terminate_flag s = true -> exited (work gen (5 + k) s).
Proof.
  intros Hflag.
  destruct (cancelled_work (5 + k) s Hflag) as [H _].
  unfold steps_when_cancelled in H at 2.
  assert (steps_when_cancelled (work gen (5 + k) s) = 0) as H0
      by (destruct (worker s); lia).
  unfold steps_when_cancelled in H0. unfold exited.
  destruct (worker (work gen (5 + k) s)); try discriminate H0. eauto.
Qed.

(** X1.  Once the flag is set the wrapper leaves within five of its own
    steps, whatever the generator, and sends at most two more objects
    (the item it was about to send and its last message). *)
Theorem X1_cancelled_worker_leaves_soon (k : nat) (s : sys) :
  should_terminate_flag s = true ->
  exited (work gen (5 + k) s) /\
  exists extra, pipe_buf (work gen k s) = pipe_buf s ++ extra /\
                length extra <= 2.
Proof.
  intros Hflag. split; [now apply cancelled_worker_exits |].
  destruct (work_view gen k s) as [_ (extra & Hbuf & _)].
  exists extra. split; [assumption |].
  destruct (cancelled_work k s Hflag) as [_ H].
  rewrite Hbuf, length_app in H.
  unfold sends_when_cancelled in H at 2. destruct (worker s); lia.
Qed.

End Cancelled.

Lemma X1_witness :
  let s := run gen_123 [OWork 3; OCancel [] 0] init in
  should_terminate_flag s = true /\ exited (work gen_123 (5 + 0) s).
Proof.
  intros s. split; [reflexivity |].
  exact (proj1 (X1_cancelled_worker_leaves_soon gen_123 0 s eq_refl)).
Defined.

(** ** What the wrapper sends, over any generator *)

Lemma first_yields_nil (gen : generator) : first_yields gen [].
Proof. intros [| k] v H; discriminate H. Qed.

Lemma first_yields_snoc (gen : generator) (l : list pyval) (d : pyval) :
  first_yields gen (l ++ [d]) <->
  first_yields gen l /\ gen (length l) = GYield d.
Proof.
  unfold first_yields. split.
  - intros H. split.
    + intros k v Hk. apply H. rewrite nth_error_app1; [assumption |].
      apply nth_error_Some. congruence.
    + apply H. rewrite nth_error_app2 by lia. now rewrite Nat.sub_diag.
  - intros [Hl Hd] k v Hk.
    destruct (Nat.lt_ge_cases k (length l)) as [Hlt | Hge].
    + rewrite nth_error_app1 in Hk by assumption. now apply Hl.
    + rewrite nth_error_app2 in Hk by assumption.
      destruct (k - length l) as [| n] eqn:Hn; simpl in Hk.
      * injection Hk as <-. assert (k = length l) as -> by lia. exact Hd.
      * destruct n; discriminate Hk.
Qed.

Lemma pipe_sent_send (v : pyval) (s : sys) :
  pipe_sent (send v s) = pipe_sent s ++ [v].
Proof. unfold pipe_sent. simpl. now rewrite app_assoc. Qed.

Lemma terminal_reason_set
  (gen : generator) (j : nat) (flag : bool) (e : pyexc) :
  terminal_reason gen j flag e -> terminal_reason gen j true e.
Proof. unfold terminal_reason. tauto. Qed.

Section Lockstep.

Variable gen : generator.

Lemma lockstep_sent_ok (s : sys) : lockstep gen s -> sent_ok gen s.
Proof.
  unfold lockstep, sent_ok.
  destruct (worker s) as [i | d i | d i | e | | [e |] | [| e |]];
    intros H; try tauto.
  - left. destruct H as [H _]. now apply first_yields_snoc in H.
  - left. destruct H as [H _]. now apply first_yields_snoc in H.
Qed.

Lemma lockstep_worker_step (s : sys) :
  lockstep gen s -> lockstep gen (worker_step gen s).
Proof.
  unfold lockstep, sent_ok, worker_step.
  destruct (worker s) as [i | d i | d i | e | | [e |] | [| e |]] eqn:Hw.
  - intros [Hy Hl]. subst i.
    destruct (for_next gen (length (pipe_sent s))) as [v | | e] eqn:Hg;
      simpl.
    + fold (pipe_sent s). apply for_next_yield_inv in Hg. split.
      * now apply first_yields_snoc.
      * unfold pipe_sent. rewrite length_app. simpl. lia.
    + auto.
    + destruct (issubclass (exc_class e) Exception) eqn:He; simpl.
      * split; [assumption |]. right. left. auto.
      * auto.
  - intros [Hy Hl].
    destruct (should_terminate_flag s) eqn:Hflag; simpl.
    + apply first_yields_snoc in Hy. destruct Hy as [Hy Hd].
      fold (pipe_sent s). rewrite Hflag.
      split; [assumption |]. right. right. eauto.
    + auto.
  - intros [Hy Hl]. unfold pipe_sent in *. simpl. rewrite app_assoc. auto.
  - intros [Hy Hr]. unfold pipe_sent in *. simpl. rewrite app_assoc.
    exists (pipe_recvd s ++ pipe_buf s), e. auto.
  - intros [Hy Hr]. unfold pipe_sent in *. simpl. rewrite app_assoc.
    exists (pipe_recvd s ++ pipe_buf s), stop_iteration.
    repeat split; try assumption. left. auto.
  - simpl. auto.
  - simpl. auto.
  - rewrite Hw. auto.
  - rewrite Hw. auto.
  - rewrite Hw. auto.
Qed.

Lemma lockstep_fetch_iter (s : sys) :
  lockstep gen s -> lockstep gen (fst (fetch_iter s)).
Proof.
  unfold lockstep, sent_ok.
  destruct (fetch_iter_worker_side s) as (E1 & _ & E3 & E4).
  now rewrite E1, E3, E4.
Qed.

Lemma lockstep_set_flag (s : sys) : lockstep gen s -> lockstep gen (set_flag s).
Proof.
  unfold lockstep, sent_ok, pipe_sent. simpl.
  destruct (worker s) as [i | d i | d i | e | | [e |] | [| e |]];
    try tauto.
  - intros [Hy Hr]. split; [assumption |].
    now apply terminal_reason_set in Hr.
  - intros (items & e & H1 & H2 & H3). exists items, e.
    repeat split; try assumption. now apply terminal_reason_set in H3.
  - intros (items & e & H1 & H2 & H3). exists items, e.
    repeat split; try assumption. now apply terminal_reason_set in H3.
  - intros [H | (items & e & H1 & H2 & H3)]; [now left | right].
    exists items, e.
    repeat split; try assumption. now apply terminal_reason_set in H3.
Qed.

Lemma lockstep_kill (s : sys) : lockstep gen s -> lockstep gen (kill s).
Proof.
  intros H. pose proof (lockstep_sent_ok s H) as Hok.
  unfold kill. destruct (worker s) eqn:Hw; try exact H;
    unfold lockstep; simpl; exact Hok.
Qed.

Lemma lockstep_ops (ops : list op) : lockstep gen (run gen ops init).
Proof.
  apply (lift_ops gen (lockstep gen)).
  - apply lockstep_worker_step.
  - apply lockstep_fetch_iter.
  - intros n s H. exact H.
  - apply lockstep_set_flag.
  - intros s H. exact H.
  - intros s H _. exact H.
  - apply lockstep_kill.
  - unfold lockstep. simpl. split; [apply first_yields_nil | reflexivity].
Qed.

(** X2.  Whatever the generator and whatever the caller does, the pipe has
    carried the first items of the generator, one by one and in order, and
    after them at most one last message:
    - the wrapper's own [StopIteration()], only when the iteration ended
      after these items: the iterator was exhausted, or a [StopIteration]
      instance left a later request;
    - the wrapper's own [EarlyCancellationError], only when the flag was
      set; the item at hand is dropped;
    - an [Exception] instance [e], only when the next request raised [e],
      and [e] is no [StopIteration] instance unless it was raised by the
      call itself, before any item.
    A wrapper that left after handling the outcome has sent that last
    message; a wrapper that left on an exception outside the [Exception]
    hierarchy has sent only items. *)
Theorem X2_wrapper_sends_the_generator_in_order (ops : list op) :
  let s := run gen ops init in
  let last_message items e :=
    (e = stop_iteration /\
     (gen (length items) = GReturn \/
      exists e', gen (length items) = GRaise e' /\
                 issubclass (exc_class e') StopIteration = true /\
                 items <> [])) \/
    (gen (length items) = GRaise e /\
     issubclass (exc_class e) Exception = true /\
     (issubclass (exc_class e) StopIteration = false \/ items = [])) \/
    (e = early_cancellation /\ should_terminate_flag s = true /\
     exists d, gen (length items) = GYield d) in
  (first_yields gen (pipe_sent s) \/
   exists items e,
     pipe_sent s = items ++ [PyExc e] /\ first_yields gen items /\
     last_message items e) /\
  (worker s = WExited ExitOk ->
   exists items e,
     pipe_sent s = items ++ [PyExc e] /\ first_yields gen items /\
     last_message items e) /\
  (forall e, worker s = WExited (ExitUncaught e) ->
             first_yields gen (pipe_sent s) /\
             gen (length (pipe_sent s)) = GRaise e /\
             issubclass (exc_class e) Exception = false).
Proof.
  intros s last_message.
  assert (forall items e,
             terminal_reason gen (length items) (should_terminate_flag s) e ->
             last_message items e) as Hreason.
  { intros items e [[-> Hg] | [[Hg He] | Hc]].
    - left. split; [reflexivity |]. apply for_next_return in Hg.
      destruct Hg as [Hg | (e' & Hg & Hs & Hi)]; [now left | right].
      exists e'. repeat split; try assumption.
      intros ->. now apply Hi.
    - right. left. apply for_next_raise in Hg. destruct Hg as [Hg Hs].
      repeat split; try assumption.
      destruct Hs as [Hs | Hi]; [now left | right].
      now apply length_zero_iff_nil.
    - right. right. exact Hc. }
  pose proof (lockstep_ops ops) as H. fold s in H.
  split; [| split].
  - destruct (lockstep_sent_ok s H) as [Hy | (items & e & H1 & H2 & H3)];
      [now left | right].
    exists items, e. auto.
  - unfold lockstep in H. intros Hw. rewrite Hw in H.
    destruct H as (items & e & H1 & H2 & H3). exists items, e. auto.
  - unfold lockstep in H. intros e Hw. rewrite Hw in H.
    destruct H as (Hy & Hg & He). repeat split; try assumption.
    apply for_next_raise in Hg. tauto.
Qed.

End Lockstep.

(** ** What [fetch] does with what it receives, over any run *)

Lemma has_kind_classify (k : msg_kind) (d : pyval) :
  has_kind k d = true <-> classify d = k.
Proof.
  unfold has_kind. destruct (classify d), k; split; congruence.
Qed.

Lemma is_itemb_kind (d : pyval) : is_itemb d = has_kind KItem d.
Proof.
  unfold is_itemb. destruct (has_kind KItem d) eqn:E.
  - apply has_kind_classify, classify_item in E. unfold is_item in E.
    now rewrite E.
  - destruct (isinstance d Exception) eqn:Hi; [reflexivity |].
    assert (classify d = KItem) as H by now apply classify_item.
    apply has_kind_classify in H. congruence.
Qed.

Lemma has_kind_other (k k' : msg_kind) (d : pyval) :
  classify d = k -> k <> k' -> has_kind k' d = false.
Proof.
  intros H Hne. destruct (has_kind k' d) eqn:E; [| reflexivity].
  apply has_kind_classify in E. congruence.
Qed.

Lemma filter_snoc (A : Type) (f : A -> bool) (l : list A) (d : A) :
  filter f (l ++ [d]) = filter f l ++ if f d then [d] else [].
Proof. rewrite filter_app. simpl. now destruct (f d). Qed.

Lemma existsb_snoc (A : Type) (f : A -> bool) (l : list A) (d : A) :
  existsb f (l ++ [d]) = existsb f l || f d.
Proof. rewrite existsb_app. simpl. now rewrite orb_false_r. Qed.

Section Accounted.

Variable gen : generator.

Lemma worker_step_closed (s : sys) :
  pipe_closed s = true -> pipe_closed (worker_step gen s) = true.
Proof.
  unfold worker_step.
  destruct (worker s) as [i | d i | d i | e | | p | h]; simpl; auto.
  - destruct (for_next gen i) as [v | | e];
      [| | destruct (issubclass (exc_class e) Exception)]; auto.
  - destruct (should_terminate_flag s); auto.
Qed.

Lemma accounted_worker_step (s : sys) :
  accounted s -> accounted (worker_step gen s).
Proof.
  unfold accounted.
  destruct (worker_step_view gen s)
    as [(E1 & E2 & _ & _ & E5 & E6 & E7 & _) _].
  rewrite E1, E2, E5, E6, E7.
  intros (H1 & H2 & H3 & H4 & H5). repeat split; try assumption.
  intros Hk. destruct (H5 Hk) as [H | H]; [now left | right].
  now apply worker_step_closed.
Qed.

Lemma accounted_fetch_iter (s : sys) :
  accounted s -> accounted (fst (fetch_iter s)).
Proof.
  unfold accounted. intros (H1 & H2 & H3 & H4 & H5).
  destruct (fetch_iterP s)
    as [Hb Hc | Hb Hc | d rest Hb Hd | d rest Hb Hd | d rest Hb Hd
        | d rest Hb Hd]; simpl;
    rewrite ?filter_snoc, ?existsb_snoc, ?is_itemb_kind.
  - auto.
  - repeat split; auto.
  - rewrite (proj2 (has_kind_classify KCompleted d) Hd).
    rewrite !(has_kind_other d Hd) by discriminate.
    rewrite !app_nil_r, orb_true_r, orb_false_r. auto.
  - rewrite (proj2 (has_kind_classify KCancelled d) Hd).
    rewrite !(has_kind_other d Hd) by discriminate.
    rewrite !app_nil_r, orb_true_r, orb_false_r. repeat split; auto.
  - rewrite (proj2 (has_kind_classify KFailed d) Hd).
    rewrite !(has_kind_other d Hd) by discriminate.
    rewrite !app_nil_r, !orb_false_r. rewrite H2. auto.
  - rewrite (proj2 (has_kind_classify KItem d) Hd).
    rewrite !(has_kind_other d Hd) by discriminate.
    rewrite !app_nil_r, !orb_false_r. rewrite H1. auto.
Qed.

Lemma accounted_kill (s : sys) : accounted s -> accounted (kill s).
Proof.
  unfold accounted, kill.
  destruct (worker s); simpl; try tauto;
    intros (H1 & H2 & H3 & H4 & H5); repeat split; auto.
Qed.

Lemma accounted_ops (ops : list op) : accounted (run gen ops init).
Proof.
  apply (lift_ops gen accounted).
  - apply accounted_worker_step.
  - apply accounted_fetch_iter.
  - intros n s H. exact H.
  - intros s H. exact H.
  - intros s H. exact H.
  - intros s H _. exact H.
  - apply accounted_kill.
  - unfold accounted. simpl. repeat split; auto; discriminate.
Qed.

Lemma closed_when_gone_ops (ops : list op) :
  closed_when_gone (run gen ops init).
Proof.
  apply (lift_ops gen closed_when_gone).
  - intros s. unfold closed_when_gone, gone, worker_step.
    destruct (worker s) as [i | d i | d i | e | | p | h] eqn:Hw; simpl;
      try (intros ->; reflexivity).
    + destruct (for_next gen i) as [v | | e];
        [| | destruct (issubclass (exc_class e) Exception)]; simpl; auto.
    + destruct (should_terminate_flag s); simpl; auto.
    + reflexivity.
    + now rewrite Hw.
  - intros s H. unfold closed_when_gone, gone in *.
    destruct (fetch_iter_worker_side s) as (E1 & E2 & _).
    now rewrite E1, E2.
  - intros n s H. exact H.
  - intros s H. exact H.
  - intros s H. exact H.
  - intros s H _. exact H.
  - intros s. unfold closed_when_gone, gone, kill.
    destruct (worker s) eqn:Hw; simpl; rewrite ?Hw; auto.
  - reflexivity.
Qed.

Lemma gone_exited (s : sys) : gone s = true <-> exited s.
Proof.
  unfold gone, exited. destruct (worker s); split;
    try discriminate; eauto; intros [h Hh]; discriminate.
Qed.


End Accounted.

(** ** What the status attributes and a raise tell about the generator *)

Lemma filter_items (l : list pyval) :
  Forall is_item l -> filter is_itemb l = l.
Proof.
  induction 1 as [| v l Hv _ IH]; simpl; [reflexivity |].
  assert (is_itemb v = true) as -> by (unfold is_itemb; now rewrite Hv).
  now rewrite IH.
Qed.

Lemma filter_no_items (k : msg_kind) (l : list pyval) :
  k <> KItem -> Forall is_item l -> filter (has_kind k) l = [].
Proof.
  intros Hk. induction 1 as [| v l Hv _ IH]; simpl; [reflexivity |].
  apply classify_item in Hv.
  now rewrite (has_kind_other v Hv) by congruence.
Qed.

Lemma terminal_reason_exception
  (gen : generator) (j : nat) (flag : bool) (e : pyexc) :
  terminal_reason gen j flag e -> ~ is_item (PyExc e).
Proof.
  unfold is_item. simpl.
  intros [[-> _] | [[_ He] | [-> _]]]; try rewrite He; discriminate.
Qed.

Section Sound.

Variable gen : generator.

Hypothesis Hplain : plain_items gen.

Lemma plain_first_yields (l : list pyval) :
  first_yields gen l -> Forall is_item l.
Proof.
  intros H. apply Forall_forall. intros v Hv.
  apply In_nth_error in Hv. destruct Hv as [k Hk].
  exact (Hplain (H k v Hk)).
Qed.

(** What is in the pipe of a plain generator: items, then nothing or the
    last message. *)
Lemma buffer_shape (s : sys) :
  sent_ok gen s ->
  exists pre post,
    pipe_buf s = pre ++ post /\ Forall is_item pre /\
    (post = [] \/ exists t, post = [t] /\ ~ is_item t).
Proof.
  intros [H | (items & e & Hs & Hy & Hr)].
  - apply plain_first_yields in H. unfold pipe_sent in H.
    apply Forall_app in H. exists (pipe_buf s), [].
    rewrite app_nil_r. tauto.
  - unfold pipe_sent in Hs.
    destruct (pipe_buf s) as [| b buf] eqn:Hb.
    + exists [], []. auto.
    + destruct (@exists_last _ (b :: buf)) as (pre & x & Hx);
        [discriminate |].
      rewrite Hx, app_assoc in Hs. apply app_inj_tail in Hs.
      destruct Hs as [Hs ->].
      exists pre, [PyExc e]. split; [assumption |]. split.
      * apply plain_first_yields in Hy. rewrite <- Hs in Hy.
        apply Forall_app in Hy. tauto.
      * right. exists (PyExc e). split; [reflexivity |].
        exact (terminal_reason_exception Hr).
Qed.

(** A received object that is no item is the last message of the wrapper,
    and everything before it has been received. *)
Lemma received_sentinel (s : sys) (d : pyval) :
  sent_ok gen s -> In d (pipe_recvd s) -> ~ is_item d ->
  exists items e,
    d = PyExc e /\ pipe_recvd s = items ++ [PyExc e] /\
    first_yields gen items /\
    terminal_reason gen (length items) (should_terminate_flag s) e.
Proof.
  intros [H | (items & e & Hs & Hy & Hr)] Hin Hnot.
  - exfalso. apply Hnot. apply plain_first_yields in H.
    unfold pipe_sent in H. apply Forall_app in H. destruct H as [H _].
    rewrite Forall_forall in H. now apply H.
  - unfold pipe_sent in Hs.
    assert (Forall is_item items) as Hitems by now apply plain_first_yields.
    destruct (pipe_buf s) as [| b buf] eqn:Hb.
    + rewrite app_nil_r in Hs. exists items, e.
      repeat split; try assumption.
      rewrite Hs in Hin. apply in_app_or in Hin.
      destruct Hin as [Hin | [Hin | []]]; [| now symmetry].
      exfalso. apply Hnot. rewrite Forall_forall in Hitems.
      now apply Hitems.
    + exfalso. destruct (@exists_last _ (b :: buf)) as (pre & x & Hx);
        [discriminate |].
      rewrite Hx, app_assoc in Hs. apply app_inj_tail in Hs.
      destruct Hs as [Hs _]. apply Hnot.
      rewrite Forall_forall in Hitems. apply Hitems.
      rewrite <- Hs. apply in_or_app. now left.
Qed.

Lemma classify_failed_not_stop (d : pyval) :
  classify d = KFailed -> isinstance d StopIteration = false.
Proof.
  unfold classify. destruct (isinstance d StopIteration);
    [discriminate | reflexivity].
Qed.

Lemma classify_completed_stop (d : pyval) :
  classify d = KCompleted -> isinstance d StopIteration = true.
Proof.
  unfold classify. destruct (isinstance d StopIteration); [reflexivity |].
  destruct (isinstance d EarlyCancellationError); [discriminate |].
  destruct (isinstance d Exception); discriminate.
Qed.

(** X4.  Over a generator whose items are no [Exception] instances, in
    every run: [completed] is true only if the iteration came to its end
    (the iterator was exhausted, or a request raised a [StopIteration]
    instance) and every item produced before has been yielded by [fetch],
    in order; and anything raised is the very exception that the request
    behind the last item raised, never a [StopIteration] instance, raised
    once, after all items were yielded.  ([gen] is what the requests give
    the [for] statement: for [generator_function body] a [StopIteration]
    raised in the body is the [RuntimeError] put in its place.) *)
Theorem X4_completed_and_raise_are_sound (ops : list op) :
  let s := run gen ops init in
  (completed s = true ->
   exists items,
     first_yields gen items /\ yielded s = items /\
     (gen (length items) = GReturn \/
      exists e, gen (length items) = GRaise e /\
                isinstance (PyExc e) StopIteration = true)) /\
  (forall x, In x (raised s) ->
   exists items e,
     x = PyExc e /\ raised s = [x] /\
     first_yields gen items /\ yielded s = items /\
     gen (length items) = GRaise e /\
     isinstance (PyExc e) StopIteration = false).
Proof.
  intros s.
  pose proof (lockstep_sent_ok gen s (lockstep_ops gen ops)) as Hok.
  destruct (accounted_ops gen ops) as (Hy & Hr & Hc & _). fold s in Hy, Hr, Hc.
  split.
  - intros Hdone. rewrite Hc in Hdone. apply existsb_exists in Hdone.
    destruct Hdone as (d & Hin & Hd). apply has_kind_classify in Hd.
    assert (~ is_item d) as Hnot by (rewrite <- classify_item; congruence).
    destruct (received_sentinel Hok Hin Hnot)
      as (items & e & -> & Hrecv & Hfirst & Hreason).
    exists items. split; [assumption |]. split.
    + rewrite Hy, Hrecv, filter_snoc, filter_items
        by now apply plain_first_yields.
      rewrite is_itemb_kind, (has_kind_other _ Hd) by discriminate.
      apply app_nil_r.
    + destruct Hreason as [[-> Hg] | [[Hg He] | [-> _]]].
      * apply for_next_return in Hg.
        destruct Hg as [Hg | (e' & Hg & Hs & _)]; [now left | right].
        exists e'. auto.
      * right. exists e. apply for_next_raise in Hg.
        split; [tauto | now apply classify_completed_stop].
      * discriminate Hd.
  - intros x Hx. rewrite Hr in Hx. apply filter_In in Hx.
    destruct Hx as [Hin Hd]. apply has_kind_classify in Hd.
    assert (~ is_item x) as Hnot by (rewrite <- classify_item; congruence).
    destruct (received_sentinel Hok Hin Hnot)
      as (items & e & -> & Hrecv & Hfirst & Hreason).
    exists items, e. split; [reflexivity |].
    assert (Forall is_item items) as Hitems by now apply plain_first_yields.
    split; [| split; [assumption | split; [| split]]].
    + rewrite Hr, Hrecv, filter_snoc, filter_no_items
        by (discriminate || assumption).
      now rewrite (proj2 (has_kind_classify KFailed _) Hd).
    + rewrite Hy, Hrecv, filter_snoc, filter_items by assumption.
      rewrite is_itemb_kind, (has_kind_other _ Hd) by discriminate.
      apply app_nil_r.
    + destruct Hreason as [[-> Hg] | [[Hg He] | [-> _]]];
        [discriminate Hd | | discriminate Hd].
      apply for_next_raise in Hg. tauto.
    + now apply classify_failed_not_stop.
Qed.

Lemma exited_fetch_all (sched : list nat) (s : sys) :
  exited s -> exited (fst (fetch_all gen sched s)).
Proof.
  apply (lift_fetch_all gen exited).
  - intros x Hx. now rewrite worker_step_exited.
  - intros x [h Hh]. exists h.
    destruct (fetch_iter_worker_side x) as (E & _). congruence.
Qed.

(** Two polls after the worker has gone leave the proxy in a terminal
    state. *)
Lemma two_polls_after_exit (sched1 sched2 : list nat) (s : sys) :
  sent_ok gen s -> exited s -> pipe_closed s = true ->
  let s1 := fst (fetch_all gen sched1 s) in
  let s2 := fst (fetch_all gen sched2 s1) in
  completed s2 || canceled s2 = true.
Proof.
  intros Hok Hex Hclosed s1 s2. subst s1 s2.
  destruct (completed s || canceled s) eqn:Hterm.
  { rewrite (fetch_all_terminal gen sched1 s Hterm). simpl.
    now rewrite (fetch_all_terminal gen sched2 s Hterm). }
  apply orb_false_elim in Hterm. destruct Hterm as [Hc Hk].
  destruct (buffer_shape Hok) as (pre & post & Hbuf & Hpre & Hpost).
  destruct (fetch_all_items gen sched1 s post Hc Hk Hbuf Hpre)
    as (ks & s1 & Heq & Hcons).
  destruct Hcons as (C1 & C2 & _ & _ & _ & _ & _ & _ & _ & _ & C11).
  destruct (C11 Hex) as (Hb1 & Hw1 & Hc1).
  rewrite Heq. unfold resume_then.
  destruct Hpost as [-> | (t & -> & Ht)].
  - rewrite fetch_iter_eof by congruence. simpl.
    rewrite fetch_all_terminal; simpl; apply orb_true_r.
  - rewrite <- classify_item in Ht.
    destruct (classify t) eqn:Hkind; try congruence.
    + rewrite (fetch_iter_completed s1 Hb1 Hkind). simpl.
      rewrite fetch_all_terminal; reflexivity.
    + rewrite (fetch_iter_cancelled s1 Hb1 Hkind). simpl.
      rewrite fetch_all_terminal; simpl; apply orb_true_r.
    + rewrite (fetch_iter_failed s1 Hb1 Hkind). simpl.
      set (s2 := log_raise t (received t [] s1)).
      assert (exited s2) as Hex2
          by (destruct Hex as [h Hh]; exists h; simpl; congruence).
      destruct (@fetch_all_closed gen sched2 s2) as (_ & Hcan & _);
        try assumption; simpl; try congruence; [constructor |].
      rewrite Hcan. apply orb_true_r.
Qed.

Lemma first_yields_prefix (a b : list pyval) :
  first_yields gen (a ++ b) -> first_yields gen a.
Proof.
  intros H k v Hk. apply H. rewrite nth_error_app1; [assumption |].
  apply nth_error_Some. congruence.
Qed.

(** X11.  Over a generator whose items are no [Exception] instances, what
    [fetch] has yielded in a run, whoever iterated it and whatever else
    the caller did, is always the first items of the generator, each
    once and in the order of production: nothing is lost before a yielded
    item, duplicated or reordered. *)
Theorem X11_yields_are_the_first_items_in_order (ops : list op) :
  first_yields gen (yielded (run gen ops init)).
Proof.
  set (s := run gen ops init).
  pose proof (lockstep_sent_ok gen s (lockstep_ops gen ops)) as Hok.
  destruct (accounted_ops gen ops) as (Hy & _). fold s in Hy.
  rewrite Hy. unfold sent_ok, pipe_sent in Hok.
  destruct Hok as [H | (items & e & Hs & Hfirst & Hr)].
  - apply first_yields_prefix in H.
    now rewrite filter_items by now apply plain_first_yields.
  - assert (Forall is_item items) as Hitems by now apply plain_first_yields.
    destruct (pipe_buf s) as [| b buf] eqn:Hb.
    + rewrite app_nil_r in Hs.
      rewrite Hs, filter_snoc, filter_items by assumption.
      assert (is_itemb (PyExc e) = false) as ->.
      { pose proof (terminal_reason_exception Hr) as Hnot.
        unfold is_itemb. unfold is_item in Hnot.
        now destruct (isinstance (PyExc e) Exception). }
      now rewrite app_nil_r.
    + destruct (@exists_last _ (b :: buf)) as (pre & x & Hx);
        [discriminate |].
      rewrite Hx, app_assoc in Hs. apply app_inj_tail in Hs.
      destruct Hs as [Hs _]. rewrite <- Hs in Hfirst, Hitems.
      apply Forall_app in Hitems. destruct Hitems as [Hrecv _].
      rewrite filter_items by assumption.
      now apply first_yields_prefix in Hfirst.
Qed.

(** X5.  No poll loop waits for ever on a worker that is gone, and
    cancellation takes effect.  Over a generator whose items are no
    [Exception] instances: when the worker has left (finished, cancelled
    or killed), two polls leave the proxy completed or canceled (the first
    poll may raise the generator's failure; the second then finds the
    closed pipe); and once the flag is set the worker has left after five
    of its steps, so the same two polls end the task. *)
Theorem X5_polls_end_the_task_once_the_worker_is_gone
  (ops : list op) (sched1 sched2 : list nat) :
  let s := run gen ops init in
  (exited s ->
   let s2 := fst (fetch_all gen sched2 (fst (fetch_all gen sched1 s))) in
   completed s2 || canceled s2 = true) /\
  (should_terminate_flag s = true ->
   forall k,
     let s1 := fst (fetch_all gen sched1 (work gen (5 + k) s)) in
     let s2 := fst (fetch_all gen sched2 s1) in
     exited s2 /\ completed s2 || canceled s2 = true).
Proof.
  intros s.
  assert (forall ops', let s' := run gen ops' init in
            exited s' ->
            completed (fst (fetch_all gen sched2
                              (fst (fetch_all gen sched1 s'))))
            || canceled (fst (fetch_all gen sched2
                                (fst (fetch_all gen sched1 s')))) = true)
    as Hgone.
  { intros ops' s' Hex. apply two_polls_after_exit.
    - apply lockstep_sent_ok, lockstep_ops.
    - assumption.
    - pose proof (closed_when_gone_ops gen ops') as Hcg.
      unfold closed_when_gone in Hcg. fold s' in Hcg. rewrite Hcg.
      now apply gone_exited. }
  split; [apply Hgone |].
  intros Hflag k s1 s2.
  pose proof (cancelled_worker_exits gen k s Hflag) as Hex.
  split.
  - subst s2 s1. now apply exited_fetch_all, exited_fetch_all.
  - subst s2 s1.
    assert (work gen (5 + k) s = run gen (ops ++ [OWork (5 + k)]) init) as E
        by (now rewrite run_app).
    rewrite E in Hex |- *. now apply Hgone.
Qed.

End Sound.

(** ** [cancel] and [__del__] on a running task *)

Section CancelContract.

Variable gen : generator.

Lemma fetch_iter_handle (s : sys) :
  process (fst (fetch_iter s)) = process s /\
  joins (fst (fetch_iter s)) = joins s.
Proof. iter_cases s; auto. Qed.

Lemma fetch_all_handle (sched : list nat) (s : sys) :
  process (fst (fetch_all gen sched s)) = process s /\
  joins (fst (fetch_all gen sched s)) = joins s.
Proof.
  apply (lift_fetch_all gen
           (fun s' => process s' = process s /\ joins s' = joins s)).
  - intros x [H1 H2].
    destruct (worker_step_view gen x)
      as [(_ & _ & E1 & _ & _ & _ & _ & E2 & _) _].
    now rewrite E1, E2.
  - intros x [H1 H2]. destruct (fetch_iter_handle x) as [E1 E2].
    now rewrite E1, E2.
  - auto.
Qed.

Lemma fetch_loop_raise (sched : list nat) (s : sys) (x : pyval) :
  snd (fetch_loop gen sched s) = Raised x ->
  classify x = KFailed /\
  In x (pipe_recvd (fst (fetch_loop gen sched s))) /\
  completed (fst (fetch_loop gen sched s)) = completed s /\
  canceled (fst (fetch_loop gen sched s)) = canceled s.
Proof.
  revert s. induction sched as [| k ks IH]; intros s; simpl;
    [discriminate |].
  destruct (work_view gen k s) as [(E1 & E2 & _) _].
  rewrite <- E1, <- E2.
  destruct (fetch_iterP (work gen k s))
    as [Hb Hc | Hb Hc | d rest Hb Hd | d rest Hb Hd | d rest Hb Hd
        | d rest Hb Hd]; simpl; try discriminate.
  - intros [= <-]. repeat split; try assumption.
    apply in_or_app. right. now left.
  - intros H. now destruct (IH _ H) as (H1 & H2 & H3 & H4).
Qed.

Lemma fetch_all_raise (sched : list nat) (s : sys) (x : pyval) :
  snd (fetch_all gen sched s) = Raised x ->
  classify x = KFailed /\
  In x (pipe_recvd (fst (fetch_all gen sched s))) /\
  completed s = false /\ canceled s = false /\
  completed (fst (fetch_all gen sched s)) = false /\
  canceled (fst (fetch_all gen sched s)) = false.
Proof.
  destruct (completed s || canceled s) eqn:Hterm.
  - rewrite fetch_all_terminal by assumption. discriminate.
  - apply orb_false_elim in Hterm. destruct Hterm as [Hc Hk].
    rewrite fetch_all_enters by assumption. intros H.
    destruct (fetch_loop_raise _ _ H) as (H1 & H2 & H3 & H4).
    rewrite H3, H4. repeat split; assumption.
Qed.

(** X6.  [cancel] either returns or lets out what its flush received as a
    failure.  When it returns, the handle is released and the worker was
    joined if the handle was still held.  When it raises, the proxy was
    neither completed nor canceled and still is not, the flag is set, the
    raised object is an [Exception] instance from the pipe that is neither
    a [StopIteration] nor an [EarlyCancellationError], and the worker is
    not joined: the handle is kept. *)
Theorem X6_cancel_returns_or_reraises
  (sched : list nat) (j : nat) (s : sys) :
  let s' := fst (cancel gen sched j s) in
  match snd (cancel gen sched j s) with
  | Returned =>
      process s' = None /\
      joins s' = match process s with
                 | Some _ => S (joins s)
                 | None => joins s
                 end
  | Raised x =>
      completed s = false /\ canceled s = false /\
      completed s' = false /\ canceled s' = false /\
      should_terminate_flag s' = true /\
      classify x = KFailed /\ In x (pipe_recvd s') /\
      process s' = process s /\ joins s' = joins s
  | Suspended => False
  end.
Proof.
  unfold cancel.
  destruct (completed s || canceled s) eqn:Hterm; simpl.
  - destruct (join_view gen j s) as (_ & _ & _ & _ & _ & _ & _ & E8 & E9).
    auto.
  - pose proof (fetch_all_handle sched (set_flag s)) as [Hp Hj].
    pose proof (fetch_all_raise sched (set_flag s)) as Hraise.
    pose proof (fetch_op_keeps_flag gen (b := true) (OFetchAll sched)
                  (set_flag s) I eq_refl) as Hflag.
    simpl in Hp, Hj, Hflag.
    destruct (fetch_all gen sched (set_flag s)) as [s1 [| x |]];
      simpl in *.
    + destruct (join_view gen j s1) as (_ & _ & _ & _ & _ & _ & _ & E8 & E9).
      rewrite E9, Hp, Hj. auto.
    + destruct (Hraise x eq_refl) as (H1 & H2 & H3 & H4 & H5 & H6).
      repeat split; assumption.
    + destruct (join_view gen j s1) as (_ & _ & _ & _ & _ & _ & _ & E8 & E9).
      rewrite E9, Hp, Hj. auto.
Qed.

Lemma released_stays (ops : list op) (s : sys) :
  process s = None ->
  process (run gen ops s) = None /\ joins (run gen ops s) = joins s.
Proof.
  intros Hp.
  apply (lift_ops gen (fun s' => process s' = None /\ joins s' = joins s)).
  - intros x [H1 H2].
    destruct (worker_step_view gen x)
      as [(_ & _ & E1 & _ & _ & _ & _ & E2 & _) _].
    now rewrite E1, E2.
  - intros x [H1 H2]. destruct (fetch_iter_handle x) as [E1 E2].
    now rewrite E1, E2.
  - intros n x H. exact H.
  - intros x H. exact H.
  - intros x [H1 H2]. simpl. auto.
  - intros x [H1 H2] Hne. contradiction.
  - intros x [H1 H2].
    destruct (kill_view x) as (_ & _ & E1 & _ & _ & _ & _ & E2 & _).
    now rewrite E1, E2.
  - auto.
Qed.

(** X7.  [__del__] releases the handle whenever it returns, joining the
    worker at most once on the way; when the flush of its [cancel] raises,
    the exception comes out of [__del__] and the handle is kept.  A
    released handle is final: no later operation joins the worker or sets
    [process] again. *)
Theorem X7_del_releases_the_handle :
  (forall sched j s,
      let s' := fst (del gen sched j s) in
      match snd (del gen sched j s) with
      | Returned =>
          process s' = None /\
          joins s' = match process s with
                     | Some _ => S (joins s)
                     | None => joins s
                     end
      | Raised x =>
          classify x = KFailed /\
          process s' = process s /\ joins s' = joins s
      | Suspended => False
      end) /\
  (forall ops s,
      process s = None ->
      process (run gen ops s) = None /\ joins (run gen ops s) = joins s).
Proof.
  split; [| intros ops s; apply released_stays].
  intros sched j s. unfold del.
  assert (let s' := fst (cancel gen sched j s) in
          match snd (cancel gen sched j s) with
          | Returned =>
              joins s' = match process s with
                         | Some _ => S (joins s)
                         | None => joins s
                         end
          | Raised x =>
              classify x = KFailed /\
              process s' = process s /\ joins s' = joins s
          | Suspended => False
          end) as H.
  { unfold cancel.
    destruct (completed s || canceled s) eqn:Hterm; simpl.
    - now destruct (join_view gen j s)
        as (_ & _ & _ & _ & _ & _ & _ & _ & E9).
    - pose proof (fetch_all_handle sched (set_flag s)) as [Hp Hj].
      pose proof (fetch_all_raise sched (set_flag s)) as Hraise.
      simpl in Hp, Hj.
      destruct (fetch_all gen sched (set_flag s)) as [s1 [| x |]];
        simpl in *.
      + destruct (join_view gen j s1)
          as (_ & _ & _ & _ & _ & _ & _ & _ & E9).
        now rewrite E9, Hp, Hj.
      + destruct (Hraise x eq_refl) as (H1 & _). auto.
      + destruct (join_view gen j s1)
          as (_ & _ & _ & _ & _ & _ & _ & _ & E9).
        now rewrite E9, Hp, Hj. }
  destruct (cancel gen sched j s) as [s1 [| x |]]; simpl in *; auto.
Qed.

(** A poll while the worker is silent: the items at the head of the buffer
    are taken one per resumption and nothing else moves. *)
Lemma fetch_loop_idle (pre : list pyval) :
  forall (n : nat) (s : sys) (post : list pyval),
    length pre < n ->
    pipe_buf s = pre ++ post -> Forall is_item pre ->
    exists m s1,
      fetch_loop gen (repeat 0 n) s = resume_then gen (repeat 0 m) s1 /\
      s1 = mk_sys (completed s) (canceled s) (process s)
             (should_terminate_flag s) post (pipe_closed s) (worker s)
             (pipe_recvd s ++ pre) (yielded s ++ pre) (raised s) (joins s)
             (suspended s).
Proof.
  induction pre as [| v pre IH]; intros n s post Hlen Hbuf Hitems;
    destruct n as [| n]; simpl in Hlen; try lia.
  - exists n, s. simpl repeat. rewrite fetch_loop_cons. simpl work.
    split; [reflexivity |]. rewrite !app_nil_r. simpl in Hbuf.
    rewrite <- Hbuf. now destruct s.
  - inversion Hitems as [| ? ? Hv Hpre]; subst.
    simpl repeat. rewrite fetch_loop_cons. simpl work.
    unfold resume_then at 1. simpl in Hbuf.
    rewrite (fetch_iter_item s Hbuf Hv).
    destruct (IH n (log_yield v (received v (pre ++ post) s)) post)
      as (m & s1 & Heq & Hs1); [lia | reflexivity | assumption |].
    exists m, s1. split; [exact Heq |].
    rewrite Hs1. simpl. now rewrite <- !app_assoc.
Qed.

(** X8.  [fetch] does not wait: a poll of a proxy that is neither
    completed nor canceled, on an open pipe holding only items and with
    the worker silent meanwhile, yields exactly the buffered items in
    order, empties the buffer and leaves everything else as it was; the
    task is still running.  On an empty pipe this is a return without any
    effect. *)
Theorem X8_poll_takes_what_is_buffered (s : sys) :
  completed s = false -> canceled s = false ->
  pipe_closed s = false -> Forall is_item (pipe_buf s) ->
  let s' := fst (fetch_all gen [] s) in
  snd (fetch_all gen [] s) = Returned /\
  yielded s' = yielded s ++ pipe_buf s /\
  pipe_recvd s' = pipe_recvd s ++ pipe_buf s /\
  pipe_buf s' = [] /\
  completed s' = false /\ canceled s' = false /\ raised s' = raised s /\
  worker s' = worker s /\ pipe_closed s' = false /\
  (pipe_buf s = [] -> s' = s).
Proof.
  intros Hc Hk Hopen Hitems s'. subst s'.
  rewrite (fetch_all_enters gen [] s Hc Hk).
  assert (exhaust [] s = repeat 0 (S (length (pipe_buf s) + list_sum [])))
    as -> by reflexivity.
  destruct (@fetch_loop_idle (pipe_buf s)
              (S (length (pipe_buf s) + list_sum [])) s [])
    as (m & s1 & Heq & Hs1);
    [lia | now rewrite app_nil_r | assumption |].
  rewrite Heq. unfold resume_then.
  rewrite fetch_iter_nothing by (rewrite Hs1; simpl; auto).
  rewrite Hs1. simpl. repeat split; try assumption.
  intros Hempty. rewrite Hempty, !app_nil_r. rewrite <- Hempty.
  now destruct s.
Qed.

(** X9.  [cancel] does not by itself make the proxy canceled.  Called on a
    proxy that is neither completed nor canceled while the pipe is open
    and empty, and with the worker silent during the flush, it sets the
    flag, joins and releases the handle, and returns with [completed] and
    [canceled] both still false: only a later [fetch] can set them. *)
Theorem X9_cancel_leaves_the_status_to_fetch (j : nat) (s : sys) :
  completed s = false -> canceled s = false ->
  pipe_closed s = false -> pipe_buf s = [] ->
  cancel gen [] j s = (join gen j (set_flag s), Returned) /\
  let s' := fst (cancel gen [] j s) in
  completed s' = false /\ canceled s' = false /\
  should_terminate_flag s' = true /\ process s' = None /\
  yielded s' = yielded s /\ raised s' = raised s.
Proof.
  intros Hc Hk Hopen Hbuf.
  assert (cancel gen [] j s = (join gen j (set_flag s), Returned)) as E.
  { unfold cancel. rewrite Hc, Hk. simpl negb. cbv iota.
    rewrite fetch_all_enters by assumption.
    unfold exhaust. simpl. rewrite Hbuf. simpl.
    rewrite fetch_iter_nothing by assumption. reflexivity. }
  split; [exact E |]. rewrite E. simpl.
  destruct (join_view gen j (set_flag s))
    as (E1 & E2 & E3 & _ & E5 & E6 & _ & E8 & _).
  simpl in *. rewrite E1, E2, E3, E5, E6. repeat split; auto.
Qed.

End CancelContract.

(** ** Concrete runs for the properties above *)

Lemma generator_function_plain (body : nat -> gen_event) :
  plain_items body -> plain_items (generator_function body).
Proof.
  intros H i v. unfold generator_function.
  destruct (body i) as [w | | e] eqn:Hb.
  - intros E. injection E as <-. exact (H i w Hb).
  - discriminate.
  - destruct (issubclass (exc_class e) StopIteration); discriminate.
Qed.

(** A generator function whose body raises [StopIteration] after one
    item: what [fetch] raises is the [RuntimeError] that left the second
    request. *)
Lemma X4_witness :
  let s := run gen_stop_in_body finish_then_poll init in
  In (PyExc generator_raised_stop) (raised s) /\
  exists items e,
    PyExc generator_raised_stop = PyExc e /\
    raised s = [PyExc generator_raised_stop] /\
    first_yields gen_stop_in_body items /\ yielded s = items /\
    gen_stop_in_body (length items) = GRaise e /\
    isinstance (PyExc e) StopIteration = false.
Proof.
  intros s.
  assert (plain_items gen_stop_in_body) as Hplain
      by (apply generator_function_plain, list_gen_plain;
          repeat constructor).
  assert (In (PyExc generator_raised_stop) (raised s)) as Hin
      by (vm_compute; left; reflexivity).
  split; [exact Hin |].
  exact (proj2 (X4_completed_and_raise_are_sound Hplain finish_then_poll)
           (PyExc generator_raised_stop) Hin).
Defined.

Lemma X5_witness :
  let s := run gen_123 [OWork 2; OCancel [] 0] init in
  should_terminate_flag s = true /\
  let s1 := fst (fetch_all gen_123 [] (work gen_123 (5 + 0) s)) in
  let s2 := fst (fetch_all gen_123 [] s1) in
  exited s2 /\ completed s2 || canceled s2 = true.
Proof.
  intros s. split; [reflexivity |].
  assert (plain_items gen_123) as Hplain
      by (apply list_gen_plain; repeat constructor).
  exact (proj2 (X5_polls_end_the_task_once_the_worker_is_gone
                  Hplain [OWork 2; OCancel [] 0] [] [])
           eq_refl 0).
Defined.

Lemma X8_witness :
  let s := run gen_123 [OWork 7] init in
  let s' := fst (fetch_all gen_123 [] s) in
  pipe_buf s = [PyInt 1; PyInt 2] /\
  snd (fetch_all gen_123 [] s) = Returned /\
  yielded s' = yielded s ++ pipe_buf s.
Proof.
  intros s s'. split; [reflexivity |].
  assert (Forall is_item (pipe_buf s)) as Hitems by (repeat constructor).
  destruct (@X8_poll_takes_what_is_buffered gen_123 s
              eq_refl eq_refl eq_refl Hitems) as (H1 & H2 & _).
  exact (conj H1 H2).
Defined.

Lemma X9_witness :
  let s' := fst (cancel gen_123 [] 5 init) in
  completed s' = false /\ canceled s' = false /\
  should_terminate_flag s' = true /\ process s' = None.
Proof.
  intros s'.
  destruct (proj2 (@X9_cancel_leaves_the_status_to_fetch gen_123 5 init
                     eq_refl eq_refl eq_refl eq_refl))
    as (H1 & H2 & H3 & H4 & _).
  exact (conj H1 (conj H2 (conj H3 H4))).
Defined.

Lemma X11_witness :
  let s := run gen_123 [OWork 7; OFirst; OCancel [] 5; OFetchAll []] init in
  yielded s = [PyInt 1; PyInt 2] /\ first_yields gen_123 (yielded s).
Proof.
  intros s. split; [reflexivity |].
  assert (plain_items gen_123) as Hplain
      by (apply list_gen_plain; repeat constructor).
  exact (X11_yields_are_the_first_items_in_order Hplain
           [OWork 7; OFirst; OCancel [] 5; OFetchAll []]).
Defined.
